(** * PixelLab MCP server (mcp/pixellab-mcp): a shallow embedding

    The tools of [server.py] ([health], [generate_sprite],
    [generate_character_set], [generate_tile]) and the polling loop of
    [test_generate_sprite.py] are translated into a small state-and-exception
    monad.  The remote PixelLab client, the filesystem, pathlib and PIL are
    collaborators of the program, not part of it: they are an interface
    ([Env]) whose every behaviour, a raised exception included, is quantified
    over.  What the program itself does with them is recorded in a log of
    calls and in a map of written files. *)

From Stdlib Require Import ZArith String Ascii List Lia DecimalString Permutation.
From stdpp Require Import gmap strings list fin_maps.

Set Warnings "-register-all".

(** ** Python strings *)

Module PyStr.

(** A [str] is its UTF-8 bytes.  [c.lower()] for one ASCII character: the
    capitals A-Z move to a-z, every other ASCII character stays. *)
Definition lower_ascii (c : ascii) : ascii :=
  let n := nat_of_ascii c in
  if ((65 <=? n)%nat && (n <=? 90)%nat)%bool then ascii_of_nat (n + 32) else c.

(** [s.lower()] for ASCII text.  Outside ASCII [str.lower()] follows the
    Unicode tables, which are not modelled: the program's own call goes
    through [str_lower] of the runtime interface below, and this function
    is what [str_lower] is known to compute on ASCII text. *)
Fixpoint lower (s : string) : string :=
  match s with
  | EmptyString => EmptyString
  | String c s' => String (lower_ascii c) (lower s')
  end.

(** Every byte below 128: the text is ASCII. *)
Fixpoint is_ascii (s : string) : bool :=
  match s with
  | EmptyString => true
  | String c s' => ((nat_of_ascii c <? 128)%nat && is_ascii s')%bool
  end.

(** [s.replace(old, new)] for one-character ASCII [old] and [new]; in
    UTF-8 an ASCII byte is never part of another character. *)
Fixpoint replace (old new : ascii) (s : string) : string :=
  match s with
  | EmptyString => EmptyString
  | String c s' => String (if Ascii.eqb c old then new else c) (replace old new s')
  end.

(** [sub in s] *)
Fixpoint contains (sub s : string) : bool :=
  if String.prefix sub s then true
  else match s with
       | EmptyString => false
       | String _ s' => contains sub s'
       end.

(** [str(n)] for an [int]. *)
Definition str_int (z : Z) : string := NilZero.string_of_int (Z.to_int z).

(** The textual meaning of [sub in s]. *)
Definition substring_of (sub s : string) : Prop :=
  exists pre post : string, s = pre +:+ sub +:+ post.

End PyStr.

(** ** The collaborators *)

(** What a call into a library can do: return, or raise an [Exception]
    whose [str(e)] is [e]. *)
Inductive outcome (A : Type) : Type :=
| Returns (a : A)
| Raises (e : string).
Arguments Returns {A} a.
Arguments Raises {A} e.

(** The keyword arguments of [pixellab_client.generate_image_pixflux];
    [generate_sprite] passes [view] and [direction], [generate_tile] passes
    [isometric]. *)
Record request : Type := {
  req_description : string;
  req_width : Z;
  req_height : Z;
  req_view : option string;
  req_direction : option string;
  req_isometric : option bool;
  req_no_background : bool
}.

(** The Python runtime and the libraries [server.py] imports. *)
Class Env : Type := {
  (** Python floats: [0.0], [x == 0], [f"{x}"] *)
  float : Type;
  float_zero : float;
  float_is_zero : float -> bool;
  str_float : float -> string;
  (** [s.lower()], Unicode-aware; on ASCII text it is [PyStr.lower] *)
  str_lower : string -> string;
  str_lower_ascii :
    forall s, PyStr.is_ascii s = true -> str_lower s = PyStr.lower s;
  (** pathlib: [Path(s)], [p / name], [p.parent], [str(p)] *)
  path : Type;
  Path : string -> path;
  joinpath : path -> string -> path;
  parent : path -> path;
  str_path : path -> string;
  (** [response.image] and the PIL image decoded from it *)
  base64image : Type;
  pil : Type;
  (** everything outside the process: the remote service, the disk *)
  world : Type;
  get_balance : world -> outcome (option float) * world;
  generate_image_pixflux : request -> world -> outcome (option base64image) * world;
  pil_image : base64image -> world -> outcome pil * world;
  os_mkdir : path -> world -> outcome unit * world;
  os_save : pil -> path -> world -> outcome unit * world;
  (** module-level configuration, read once at import *)
  DEFAULT_OUTPUT_DIR : string
}.

(** [get_balance] returns the balance object as [Some usd] when it has a
    [usd] attribute and [None] when it has none; [generate_image_pixflux]
    returns [response.image], [None] when it is missing or falsy. *)

Section Model.
Context `{E : Env}.

(** *** Python values and dict literals *)

Inductive value : Type :=
| VNone
| VBool (b : bool)
| VInt (z : Z)
| VFloat (f : float)
| VStr (s : string)
| VList (l : list value)
| VDict (d : list (string * value)).

(** A dict literal, in insertion order. *)
Definition dict : Type := list (string * value).

(** [d.get(k)] *)
Fixpoint dict_get (d : dict) (k : string) : value :=
  match d with
  | [] => VNone
  | (k', v) :: d' => if String.eqb k' k then v else dict_get d' k
  end.

(** [k in d] *)
Fixpoint dict_has (d : dict) (k : string) : bool :=
  match d with
  | [] => false
  | (k', _) :: d' => if String.eqb k' k then true else dict_has d' k
  end.

(** Truth value of an object, as [if x:] tests it. *)
Definition truthy (v : value) : bool :=
  match v with
  | VNone => false
  | VBool b => b
  | VInt z => negb (Z.eqb z 0)
  | VFloat f => negb (float_is_zero f)
  | VStr s => negb (String.eqb s "")
  | VList l => match l with [] => false | _ => true end
  | VDict d => match d with [] => false | _ => true end
  end.

(** *** State, log and the monad *)

(** The calls the program makes, in the order it makes them. *)
Inductive event : Type :=
| EGetBalance
| EGenerate (req : request)
| EMkdir (p : string)
| ESave (p : string).

Record state : Type := {
  ext : world;
  files : gmap string pil;
  log : list event
}.

Definition M (A : Type) : Type := state -> outcome A * state.

Definition ret {A} (a : A) : M A := fun st => (Returns a, st).

Definition raise {A} (e : string) : M A := fun st => (Raises e, st).

Definition bind {A B} (m : M A) (k : A -> M B) : M B :=
  fun st =>
    match m st with
    | (Returns a, st') => k a st'
    | (Raises e, st') => (Raises e, st')
    end.

(** [try: body / except Exception as e: handler(str(e))]; what the body
    did to the state before raising stays done. *)
Definition try_except {A} (body : M A) (handler : string -> M A) : M A :=
  fun st =>
    match body st with
    | (Returns a, st') => (Returns a, st')
    | (Raises e, st') => handler e st'
    end.

(** A call into a library that the log does not record. *)
Definition call_pure {A} (f : world -> outcome A * world) : M A :=
  fun st =>
    let (r, w) := f (ext st) in
    (r, {| ext := w; files := files st; log := log st |}).

(** A call into the world: logged, then answered by the collaborator. *)
Definition call {A} (ev : event) (f : world -> outcome A * world) : M A :=
  fun st =>
    let (r, w) := f (ext st) in
    (r, {| ext := w; files := files st; log := log st ++ [ev] |}).

Notation "'let*' x ':=' m 'in' k" := (bind m (fun x => k))
  (at level 10, x name, m at level 100, k at level 200).
Notation "m ';;;' k" := (bind m (fun _ => k))
  (at level 100, k at level 200, right associativity).

(** [d[k]]: raises [KeyError] when the key is missing. *)
Definition getitem (d : dict) (k : string) : M value :=
  if dict_has d k then ret (dict_get d k) else raise ("'" +:+ k +:+ "'").

(** [r[k]] where [r] must be a dict (an element of [results]). *)
Definition subscript (r : value) (k : string) : M value :=
  match r with
  | VDict d => getitem d k
  | _ => raise "object is not subscriptable"
  end.

(** [Path(v)]: a [TypeError] unless [v] is a [str]. *)
Definition Path_of_value (v : value) : M path :=
  match v with
  | VStr s => ret (Path s)
  | _ => raise "expected str, bytes or os.PathLike object"
  end.

(** [p.mkdir(parents=True, exist_ok=True)] *)
Definition mkdir (p : path) : M unit :=
  call (EMkdir (str_path p)) (os_mkdir p).

(** [pixellab_client.generate_image_pixflux(...)], giving [response.image]. *)
Definition client_generate (req : request) : M (option base64image) :=
  call (EGenerate req) (generate_image_pixflux req).

(** [pil_image.save(file_path)]: when the library returns, the file at
    [file_path] holds the image, replacing what was there; when it raises,
    the map of files is left as it was. *)
Definition save (img : pil) (p : path) : M unit :=
  call (ESave (str_path p)) (os_save img p) ;;;
  fun st => (Returns tt,
             {| ext := ext st;
                files := <[str_path p := img]> (files st);
                log := log st |}).

(** [output_dir or DEFAULT_OUTPUT_DIR] *)
Definition output_dir_or_default (output_dir : option string) : string :=
  match output_dir with
  | Some s => if String.eqb s "" then DEFAULT_OUTPUT_DIR else s
  | None => DEFAULT_OUTPUT_DIR
  end.

(** *** [health] (server.py, lines 27-48) *)

Definition health : M dict :=
  try_except
    (let* balance := call EGetBalance get_balance in
     let usd_balance := match balance with Some usd => usd | None => float_zero end in
     ret [ ("ok", VBool true);
           ("message", VStr "PixelLab API is accessible");
           ("token_valid", VBool true);
           ("client", VStr "pixellab SDK v1.0.5");
           ("balance_usd", VFloat usd_balance);
           ("subscription",
            VStr (if float_is_zero usd_balance
                  then "Tier 1 (1000 images/month)"
                  else "$" +:+ str_float usd_balance +:+ " USD")) ])
    (fun error_msg =>
       ret [ ("ok", VBool false);
             ("error", VStr error_msg);
             ("token_valid",
              VBool (negb (PyStr.contains "401" error_msg)
                     && negb (PyStr.contains "Unauthorized" error_msg))) ]).

(** *** [generate_sprite] (server.py, lines 50-120) *)

(** [f"{name.lower().replace(' ', '_')}_{direction}.png"] *)
Definition sprite_filename (name direction : string) : string :=
  PyStr.replace " " "_" (str_lower name) +:+ "_" +:+ direction +:+ ".png".

Definition generate_sprite
    (description name : string) (width height : Z) (view direction : string)
    (no_background : bool) (output_dir : option string) : M dict :=
  try_except
    (let* image :=
       client_generate
         {| req_description := description +:+ ", pixel art style";
            req_width := width; req_height := height;
            req_view := Some view; req_direction := Some direction;
            req_isometric := None;
            req_no_background := no_background |} in
     match image with
     | None =>
         ret [ ("ok", VBool false);
               ("error", VStr "No image in response");
               ("description", VStr description) ]
     | Some image =>
         let output_path := Path (output_dir_or_default output_dir) in
         mkdir output_path ;;;
         let filename := sprite_filename name direction in
         let file_path := joinpath output_path filename in
         let* pil_image := call_pure (pil_image image) in
         save pil_image file_path ;;;
         ret [ ("ok", VBool true);
               ("file_path", VStr (str_path file_path));
               ("filename", VStr filename);
               ("size", VStr (PyStr.str_int width +:+ "x" +:+ PyStr.str_int height));
               ("direction", VStr direction);
               ("view", VStr view);
               ("description", VStr description);
               ("message", VStr ("✅ Sprite saved to " +:+ str_path file_path)) ]
     end)
    (fun e =>
       ret [ ("ok", VBool false);
             ("error", VStr e);
             ("description", VStr description) ]).

(** *** [generate_character_set] (server.py, lines 122-185) *)

(** The [for direction in directions] loop, lines 149-167, with the two
    accumulators [results] and [errors]. *)
Fixpoint for_direction_in
    (description name : string) (size : Z) (output_dir : option string)
    (directions : list string) (results errors : list value)
    : M (list value * list value) :=
  match directions with
  | [] => ret (results, errors)
  | direction :: rest =>
      let* result :=
        generate_sprite description name size size "low top-down" direction
                        true output_dir in
      if truthy (dict_get result "ok")
      then for_direction_in description name size output_dir rest
             (results ++ [VDict result]) errors
      else for_direction_in description name size output_dir rest
             results
             (errors ++ [VDict [ ("direction", VStr direction);
                                 ("error", dict_get result "error") ]])
  end.

(** [[r[k] for r in results]] *)
Fixpoint comprehension (k : string) (results : list value) : M (list value) :=
  match results with
  | [] => ret []
  | r :: rest =>
      let* v := subscript r k in
      let* vs := comprehension k rest in
      ret (v :: vs)
  end.

Definition ALL_DIRECTIONS : list string := ["north"; "south"; "east"; "west"].

Definition generate_character_set
    (description name : string) (size : Z)
    (directions : option (list string)) (output_dir : option string) : M dict :=
  let directions :=
    match directions with None => ALL_DIRECTIONS | Some ds => ds end in
  let* acc := for_direction_in description name size output_dir directions [] [] in
  let (results, errors) := (acc : list value * list value) in
  match results with
  | [] =>
      ret [ ("ok", VBool false);
            ("error", VStr "Failed to generate any sprites");
            ("errors", VList errors) ]
  | first :: _ =>
      let* dirs := comprehension "direction" results in
      let* paths := comprehension "file_path" results in
      let* first_path := subscript first "file_path" in
      let* p := Path_of_value first_path in
      ret [ ("ok", VBool true);
            ("character_name", VStr name);
            ("sprites_generated", VInt (Z.of_nat (length results)));
            ("directions", VList dirs);
            ("files", VList paths);
            ("directory", VStr (str_path (parent p)));
            ("errors", match errors with [] => VNone | _ => VList errors end);
            ("message",
             VStr ("✅ Generated " +:+ PyStr.str_int (Z.of_nat (length results))
                   +:+ " sprites for " +:+ name)) ]
  end.

(** *** [generate_tile] (server.py, lines 187-249) *)

(** [f"{name.lower().replace(' ', '_')}.png"] *)
Definition tile_filename (name : string) : string :=
  PyStr.replace " " "_" (str_lower name) +:+ ".png".

Definition generate_tile
    (description name : string) (size : Z) (isometric : bool)
    (output_dir : option string) : M dict :=
  try_except
    (let* image :=
       client_generate
         {| req_description := description +:+ ", pixel art tile";
            req_width := size; req_height := size;
            req_view := None; req_direction := None;
            req_isometric := Some isometric;
            req_no_background := false |} in
     match image with
     | None =>
         ret [ ("ok", VBool false);
               ("error", VStr "No image in response");
               ("description", VStr description) ]
     | Some image =>
         let output_path := joinpath (Path (output_dir_or_default output_dir)) "tiles" in
         mkdir output_path ;;;
         let filename := tile_filename name in
         let file_path := joinpath output_path filename in
         let* pil_image := call_pure (pil_image image) in
         save pil_image file_path ;;;
         ret [ ("ok", VBool true);
               ("file_path", VStr (str_path file_path));
               ("filename", VStr filename);
               ("size", VStr (PyStr.str_int size +:+ "x" +:+ PyStr.str_int size));
               ("isometric", VBool isometric);
               ("description", VStr description);
               ("message", VStr ("✅ Tile saved to " +:+ str_path file_path)) ]
     end)
    (fun e =>
       ret [ ("ok", VBool false);
             ("error", VStr e);
             ("description", VStr description) ]).

End Model.

(** ** The polling loop of test_generate_sprite.py (step 3, lines 56-80) *)

Module PollLoop.

(** [client.get_character(character_id)], giving [character.rotations]. *)
Class Client : Type := {
  rotation : Type;
  remote : Type;
  get_character : remote -> outcome (list rotation) * remote
}.

Section Loop.
Context `{C : Client}.

Inductive event : Type :=
| ESleep (seconds : Z)
| EPoll.

Record state : Type := {
  ext : remote;
  log : list event
}.

(** [time.sleep(seconds)] *)
Definition sleep (seconds : Z) (st : state) : state :=
  {| ext := ext st; log := log st ++ [ESleep seconds] |}.

(** How control leaves the [while] statement: by [break], by the loop
    condition turning false, or by [exit(1)] in the [except] clause. *)
Inductive loop_exit : Type :=
| Break (waited : Z) (rotations : list rotation)
| CondFalse (waited : Z)
| Exit1 (e : string).

(** [while waited < max_wait: ...]; one unit of fuel per iteration. *)
Fixpoint while_waited (fuel : nat) (poll_interval max_wait waited : Z)
    (st : state) : option (loop_exit * state) :=
  match fuel with
  | O => None
  | S fuel' =>
      if (waited <? max_wait)%Z then
        let st := sleep poll_interval st in
        let waited := (waited + poll_interval)%Z in
        let (r, w) := get_character (ext st) in
        let st := {| ext := w; log := log st ++ [EPoll] |} in
        match r with
        | Returns [] => while_waited fuel' poll_interval max_wait waited st
        | Returns rotations => Some (Break waited rotations, st)
        | Raises e => Some (Exit1 e, st)
        end
      else Some (CondFalse waited, st)
  end.

(** What step 3 ends with: the script goes on to download the
    rotations, or stops with [exit(1)]. *)
Inductive verdict : Type :=
| Ready (waited : Z) (rotations : list rotation)
| TimedOut
| StatusCheckFailed (e : string).

(** The loop followed by [if waited >= max_wait: ... exit(1)]. *)
Definition await_completion (fuel : nat) (poll_interval max_wait : Z)
    (st : state) : option (verdict * state) :=
  match while_waited fuel poll_interval max_wait 0 st with
  | None => None
  | Some (Exit1 e, st') => Some (StatusCheckFailed e, st')
  | Some (Break waited rotations, st') =>
      Some (if (waited >=? max_wait)%Z then TimedOut else Ready waited rotations, st')
  | Some (CondFalse waited, st') =>
      (* the condition is false only when [waited >= max_wait] *)
      Some (if (waited >=? max_wait)%Z then TimedOut else Ready waited [], st')
  end.

(** The constants of the script. *)
Definition max_wait : Z := 90.
Definition poll_interval : Z := 5.

(** Fuel that is enough for the loop started at [waited]. *)
Definition enough (max_wait waited : Z) : nat := S (Z.to_nat (max_wait - waited)).

(** The sleeps of a log, in order. *)
Definition sleeps (l : list event) : list Z :=
  flat_map (fun ev => match ev with ESleep s => [s] | EPoll => [] end) l.

(** The number of polls of a log. *)
Definition polls (l : list event) : nat :=
  length (List.filter (fun ev => match ev with EPoll => true | _ => false end) l).

(** [n] rounds of sleeping [poll_interval] seconds, then polling. *)
Fixpoint rounds (poll_interval : Z) (n : nat) : list event :=
  match n with
  | O => []
  | S n' => ESleep poll_interval :: EPoll :: rounds poll_interval n'
  end.

(** The other discipline: poll at once, and sleep [poll_interval]
    seconds after each of [n] empty results. *)
Fixpoint poll_first (poll_interval : Z) (n : nat) : list event :=
  match n with
  | O => [EPoll]
  | S n' => EPoll :: ESleep poll_interval :: poll_first poll_interval n'
  end.

(** The wait ends ready, having polled first and slept [n] times. *)
Definition ready_after (poll_interval max_wait : Z) (n : nat) (st : state)
    : Prop :=
  exists fuel waited rotations st',
    await_completion fuel poll_interval max_wait st
    = Some (Ready waited rotations, st')
    /\ log st' = log st ++ poll_first poll_interval n.

(** The answers of the first [n] polls of a job, and the job after them. *)
Fixpoint replay (n : nat) (r : remote) : list (outcome (list rotation)) * remote :=
  match n with
  | O => ([], r)
  | S n' =>
      let (o, r1) := get_character r in
      let (os, r2) := replay n' r1 in
      (o :: os, r2)
  end.

(** [k] polls that each found no rotation yet. *)
Definition empties (k : nat) : list (outcome (list rotation)) :=
  repeat (Returns []) k.

(** Why a wait that started in [st] ended in [st'] with verdict [v], after
    [k] polls that found nothing:
    - poll [k + 1], begun before the limit, returned rotations: the wait
      stops there, with no further sleep, and is ready when the clock is
      still below the limit;
    - poll [k + 1], begun before the limit, raised: the wait stops there
      with a failed status check;
    - the clock reached the limit: no round is begun, the wait times out.
    In each case every poll is preceded by one sleep of [poll_interval]
    seconds. *)
Definition wait_ends (poll_interval max_wait : Z) (st : state)
    (v : verdict) (st' : state) (k : nat) : Prop :=
  (exists rotations,
      replay (S k) (ext st) = (empties k ++ [Returns rotations], ext st')
      /\ rotations <> []
      /\ log st' = log st ++ rounds poll_interval (S k)
      /\ (Z.of_nat k * poll_interval < max_wait)%Z
      /\ (v = Ready ((Z.of_nat k + 1) * poll_interval) rotations \/ v = TimedOut)
      /\ (((Z.of_nat k + 1) * poll_interval < max_wait)%Z ->
          v = Ready ((Z.of_nat k + 1) * poll_interval) rotations))
  \/ (exists e,
         replay (S k) (ext st) = (empties k ++ [Raises e], ext st')
         /\ log st' = log st ++ rounds poll_interval (S k)
         /\ (Z.of_nat k * poll_interval < max_wait)%Z
         /\ v = StatusCheckFailed e)
  \/ (replay k (ext st) = (empties k, ext st')
      /\ log st' = log st ++ rounds poll_interval k
      /\ (max_wait <= Z.of_nat k * poll_interval)%Z
      /\ (k = 0%nat \/ ((Z.of_nat k - 1) * poll_interval < max_wait)%Z)
      /\ v = TimedOut).

End Loop.

End PollLoop.

(** ** Reading results and logs *)

Section Observations.
Context `{E : Env}.

(** The request [generate_sprite] sends for one direction of a set. *)
Definition sprite_request (description : string) (width height : Z)
    (view direction : string) (no_background : bool) : request :=
  {| req_description := description +:+ ", pixel art style";
     req_width := width; req_height := height;
     req_view := Some view; req_direction := Some direction;
     req_isometric := None;
     req_no_background := no_background |}.

(** The path [generate_sprite] saves to. *)
Definition sprite_file_path (name direction : string) (output_dir : option string)
    : path :=
  joinpath (Path (output_dir_or_default output_dir)) (sprite_filename name direction).

(** The two dict literals [generate_sprite] returns. *)
Definition sprite_saved (description name : string) (width height : Z)
    (view direction : string) (output_dir : option string) : dict :=
  [ ("ok", VBool true);
    ("file_path", VStr (str_path (sprite_file_path name direction output_dir)));
    ("filename", VStr (sprite_filename name direction));
    ("size", VStr (PyStr.str_int width +:+ "x" +:+ PyStr.str_int height));
    ("direction", VStr direction);
    ("view", VStr view);
    ("description", VStr description);
    ("message",
     VStr ("✅ Sprite saved to "
           +:+ str_path (sprite_file_path name direction output_dir))) ].

Definition sprite_failed (e description : string) : dict :=
  [ ("ok", VBool false); ("error", VStr e); ("description", VStr description) ].

(** [result["ok"]] is a bool, and a failure carries an [error] string. *)
Definition structured (d : dict) : bool :=
  match dict_get d "ok" with
  | VBool true => true
  | VBool false => match dict_get d "error" with VStr _ => true | _ => false end
  | _ => false
  end.

(** The strings of a list of values. *)
Definition strs (l : list value) : list string :=
  flat_map (fun v => match v with VStr s => [s] | _ => [] end) l.

(** One field of every dict of a list of values. *)
Definition column (k : string) (l : list value) : list value :=
  flat_map (fun v => match v with VDict d => [dict_get d k] | _ => [] end) l.

(** The entries of the [errors] field: a list, or [None] when there is
    none to report. *)
Definition error_entries (d : dict) : list value :=
  match dict_get d "errors" with VList l => l | _ => [] end.

(** Directions that succeeded: the [directions] field ([] when the result
    has none, which is the all-failed result). *)
Definition successes (d : dict) : list string :=
  match dict_get d "directions" with VList l => strs l | _ => [] end.

(** Paths written, the [files] field. *)
Definition written (d : dict) : list string :=
  match dict_get d "files" with VList l => strs l | _ => [] end.

(** Directions that failed, and the reasons reported for them. *)
Definition failures (d : dict) : list string :=
  strs (column "direction" (error_entries d)).

Definition reasons (d : dict) : list value :=
  column "error" (error_entries d).

(** Every requested direction is in exactly one of the two lists, none is
    repeated, and nothing else is listed. *)
Definition exactly_once (directions : list string) (d : dict) : Prop :=
  NoDup (successes d ++ failures d)
  /\ forall x, In x directions <-> In x (successes d ++ failures d).

(** The directions asked for: all four when the argument is [None]. *)
Definition requested (directions : option (list string)) : list string :=
  match directions with None => ALL_DIRECTIONS | Some ds => ds end.

(** The sub-requests of a set, replayed: the result of [generate_sprite]
    for each direction in turn, each started in the state the previous one
    left. *)
Fixpoint attempts (description name : string) (size : Z)
    (output_dir : option string) (directions : list string) (st : state)
    : list (string * outcome dict) :=
  match directions with
  | [] => []
  | direction :: rest =>
      let (r, st') :=
        generate_sprite description name size size "low top-down" direction
                        true output_dir st in
      (direction, r) :: attempts description name size output_dir rest st'
  end.

(** A sub-request succeeded: it returned a dict whose [ok] is true. *)
Definition succeeded (r : outcome dict) : bool :=
  match r with
  | Returns d => truthy (dict_get d "ok")
  | Raises _ => false
  end.

(** The error text a sub-request reported. *)
Definition reported (r : outcome dict) : value :=
  match r with
  | Returns d => dict_get d "error"
  | Raises _ => VNone
  end.

(** The entry of [errors] for a failed sub-request. *)
Definition error_entry (a : string * outcome dict) : value :=
  VDict [ ("direction", VStr (fst a)); ("error", reported (snd a)) ].

(** The directions whose sub-request succeeded, and the sub-requests that
    failed, both in the order they were run. *)
Definition ok_directions (l : list (string * outcome dict)) : list string :=
  map fst (List.filter (fun a => succeeded (snd a)) l).

Definition failed_attempts (l : list (string * outcome dict))
    : list (string * outcome dict) :=
  List.filter (fun a => negb (succeeded (snd a))) l.

(** The dict [generate_character_set] builds from the directions that
    succeeded and the sub-requests that failed (lines 169-185). *)
Definition character_set_result (description name : string) (size : Z)
    (output_dir : option string) (oks : list string)
    (fails : list (string * outcome dict)) : dict :=
  match oks with
  | [] =>
      [ ("ok", VBool false);
        ("error", VStr "Failed to generate any sprites");
        ("errors", VList (map error_entry fails)) ]
  | first :: _ =>
      [ ("ok", VBool true);
        ("character_name", VStr name);
        ("sprites_generated", VInt (Z.of_nat (length oks)));
        ("directions", VList (map VStr oks));
        ("files",
         VList (map (fun d => VStr (str_path (sprite_file_path name d output_dir)))
                    oks));
        ("directory",
         VStr (str_path
                 (parent (Path (str_path (sprite_file_path name first output_dir))))));
        ("errors",
         match fails with [] => VNone | _ => VList (map error_entry fails) end);
        ("message",
         VStr ("✅ Generated " +:+ PyStr.str_int (Z.of_nat (length oks))
               +:+ " sprites for " +:+ name)) ]
  end.

(** The requests sent to the remote service, and the paths saved to. *)
Definition requests (l : list event) : list request :=
  flat_map (fun ev => match ev with EGenerate r => [r] | _ => [] end) l.

Definition saves (l : list event) : list string :=
  flat_map (fun ev => match ev with ESave p => [p] | _ => [] end) l.

(** A non-empty [str]. *)
Definition nonempty_text (v : value) : Prop :=
  exists s, v = VStr s /\ s <> "".

(** [e] is the text of an exception some collaborator can raise. *)
Definition raised (e : string) : Prop :=
  (exists req w w', generate_image_pixflux req w = (Raises e, w'))
  \/ (exists img w w', pil_image img w = (Raises e, w'))
  \/ (exists p w w', os_mkdir p w = (Raises e, w'))
  \/ (exists img p w w', os_save img p w = (Raises e, w')).

(** No exception of the collaborators has an empty [str(e)]. *)
Definition raises_text : Prop := ~ raised "".

(** The reason of a failed sprite request: the literal of line 90, or the
    text of an exception. *)
Definition sprite_reason (v : value) : Prop :=
  exists e, v = VStr e /\ (e = "No image in response" \/ raised e).

(** The account a set gives of its sub-requests: [ok] exactly when one of
    them succeeded, and when all failed one entry per direction, in order,
    each with a reason that is [good]. *)
Definition reports_every_failure (good : value -> Prop)
    (directions : list string) (l : list (string * outcome dict)) (d : dict)
    : Prop :=
  (dict_get d "ok" = VBool true <-> Exists (fun a => succeeded (snd a) = true) l)
  /\ (Forall (fun a => succeeded (snd a) = false) l ->
      dict_get d "ok" = VBool false
      /\ failures d = directions
      /\ reasons d = map (fun a => reported (snd a)) l
      /\ Forall good (reasons d)).

(** Two sprite calls in a row for one [(name, direction)], whatever their
    other arguments: when both succeed they report the filename derived
    from the name and the direction, they report one path, and the second
    adds no file.  Each has saved once, at that path; after the first the
    file holds the first image, and the second replaces it by the image
    decoded from the second response, touching no other file. *)
Definition same_path_twice (name direction : string)
    (output_dir1 output_dir2 : option string) (st : state) : Prop :=
  forall description1 width1 height1 view1 no_background1
         description2 width2 height2 view2 no_background2 d1 st1 d2 st2,
    generate_sprite description1 name width1 height1 view1 direction
                    no_background1 output_dir1 st = (Returns d1, st1) ->
    dict_get d1 "ok" = VBool true ->
    generate_sprite description2 name width2 height2 view2 direction
                    no_background2 output_dir2 st1 = (Returns d2, st2) ->
    dict_get d2 "ok" = VBool true ->
    dict_get d1 "filename" = VStr (sprite_filename name direction)
    /\ dict_get d2 "filename" = VStr (sprite_filename name direction)
    /\ dict_get d1 "file_path" = dict_get d2 "file_path"
    /\ dom (files st2) = dom (files st1)
    /\ exists p img1 img2,
         dict_get d1 "file_path" = VStr p
         /\ files st1 = <[p := img1]> (files st)
         /\ saves (log st1) = saves (log st) ++ [p]
         /\ (exists b w w',
                fst (generate_image_pixflux
                       (sprite_request description2 width2 height2 view2
                          direction no_background2) (ext st1))
                = Returns (Some b)
                /\ pil_image b w = (Returns img2, w'))
         /\ files st2 = <[p := img2]> (files st1)
         /\ saves (log st2) = saves (log st1) ++ [p].

End Observations.

(** ** A scripted environment

    A world whose remote service answers from a script, one reply per call,
    and whose disk never refuses; paths are plain strings joined with a
    slash. *)

Module Scenario.

Inductive reply : Type :=
| Image (payload : string)
| NoImage
| Fails (e : string).

Record scripted_world : Type := {
  balance_reply : outcome (option Z);
  replies : list reply
}.

Definition answer (req : request) (w : scripted_world)
    : outcome (option string) * scripted_world :=
  match replies w with
  | [] => (Raises "Connection refused", w)
  | r :: rest =>
      (match r with
       | Image payload => Returns (Some payload)
       | NoImage => Returns None
       | Fails e => Raises e
       end,
       {| balance_reply := balance_reply w; replies := rest |})
  end.

(** [str(Path(p) / name)] for a directory [p] without a trailing slash. *)
Definition join (p name : string) : string :=
  if String.prefix "/" name then name else p +:+ "/" +:+ name.

(** [str(Path(p).parent)]: everything before the last slash. *)
Fixpoint dirname (p : string) : string :=
  match p with
  | EmptyString => EmptyString
  | String c p' => if PyStr.contains "/" p' then String c (dirname p') else EmptyString
  end.

Definition scripted : Env := {|
  float := Z;
  float_zero := 0%Z;
  float_is_zero := Z.eqb 0;
  str_float := PyStr.str_int;
  str_lower := PyStr.lower;
  str_lower_ascii := fun s _ => eq_refl;
  path := string;
  Path := fun s => s;
  joinpath := join;
  parent := dirname;
  str_path := fun p => p;
  base64image := string;
  pil := string;
  world := scripted_world;
  get_balance := fun w => (balance_reply w, w);
  generate_image_pixflux := answer;
  pil_image := fun payload w => (Returns payload, w);
  os_mkdir := fun _ w => (Returns tt, w);
  os_save := fun _ _ w => (Returns tt, w);
  DEFAULT_OUTPUT_DIR := "/assets/sprites"
|}.

(** A fresh process facing the given script. *)
Definition start (balance : outcome (option Z)) (script : list reply)
    : @state scripted :=
  {| ext := {| balance_reply := balance; replies := script |} : @world scripted;
     files := ∅;
     log := [] |}.

(** A world whose remote service cannot be reached at all. *)
Definition offline : Env := {|
  float := Z;
  float_zero := 0%Z;
  float_is_zero := Z.eqb 0;
  str_float := PyStr.str_int;
  str_lower := PyStr.lower;
  str_lower_ascii := fun s _ => eq_refl;
  path := string;
  Path := fun s => s;
  joinpath := join;
  parent := dirname;
  str_path := fun p => p;
  base64image := string;
  pil := string;
  world := unit;
  get_balance := fun w => (Raises "Connection refused", w);
  generate_image_pixflux := fun _ w => (Raises "Connection refused", w);
  pil_image := fun payload w => (Returns payload, w);
  os_mkdir := fun _ w => (Returns tt, w);
  os_save := fun _ _ w => (Returns tt, w);
  DEFAULT_OUTPUT_DIR := "/assets/sprites"
|}.

Definition unplugged : @state offline :=
  {| ext := tt : @world offline; files := ∅; log := [] |}.

(** A job whose status is empty for the first [n] polls and lists four
    rotations from then on. *)
Definition ready_at : PollLoop.Client := {|
  PollLoop.rotation := string;
  PollLoop.remote := nat;
  PollLoop.get_character := fun n =>
    match n with
    | O => (Returns ["south"; "west"; "north"; "east"], O)
    | S n' => (Returns [], n')
    end
|}.

Definition waiting (n : nat) : @PollLoop.state ready_at :=
  {| PollLoop.ext := n : @PollLoop.remote ready_at; PollLoop.log := [] |}.

End Scenario.

(** ** The tile request and the shared file-name rule *)

(** The file-name rule on ASCII text. *)
Definition ascii_slug (name : string) : string :=
  PyStr.replace " " "_" (PyStr.lower name).

(** An ASCII capital letter. *)
Definition is_upper (c : ascii) : bool :=
  ((65 <=? nat_of_ascii c)%nat && (nat_of_ascii c <=? 90)%nat)%bool.

Section TileObservations.
Context `{E : Env}.

(** [name.lower().replace(' ', '_')], the name part of both file names
    (server.py, lines 98 and 228). *)
Definition slug (name : string) : string :=
  PyStr.replace " " "_" (str_lower name).

(** The request [generate_tile] sends. *)
Definition tile_request (description : string) (size : Z) (isometric : bool)
    : request :=
  {| req_description := description +:+ ", pixel art tile";
     req_width := size; req_height := size;
     req_view := None; req_direction := None;
     req_isometric := Some isometric;
     req_no_background := false |}.

(** The directory and the path [generate_tile] saves to. *)
Definition tile_dir (output_dir : option string) : path :=
  joinpath (Path (output_dir_or_default output_dir)) "tiles".

Definition tile_file_path (name : string) (output_dir : option string) : path :=
  joinpath (tile_dir output_dir) (tile_filename name).

(** The dict [generate_tile] returns after saving. *)
Definition tile_saved (description name : string) (size : Z) (isometric : bool)
    (output_dir : option string) : dict :=
  [ ("ok", VBool true);
    ("file_path", VStr (str_path (tile_file_path name output_dir)));
    ("filename", VStr (tile_filename name));
    ("size", VStr (PyStr.str_int size +:+ "x" +:+ PyStr.str_int size));
    ("isometric", VBool isometric);
    ("description", VStr description);
    ("message", VStr ("✅ Tile saved to " +:+ str_path (tile_file_path name output_dir))) ].

(** The value of [sprites_generated], when the result has one. *)
Definition sprites_generated (d : dict) : option Z :=
  match dict_get d "sprites_generated" with VInt n => Some n | _ => None end.

(** The paths a set reports, as a set of file names. *)
Definition written_set (d : dict) : gset string := list_to_set (written d).

End TileObservations.

(** ** The scripts that call the tools (test_health.py, test_tools.py) *)

Module Scripts.
Section Scripts.
Context `{E : Env}.

Local Notation "'let*' x ':=' m 'in' k" := (bind m (fun x => k))
  (at level 10, x name, m at level 100, k at level 200).

(** test_health.py, lines 16-27: the exit status of the script. *)
Definition test_health : M Z :=
  let* result := health in
  if truthy (dict_get result "ok") then ret 0%Z else ret 1%Z.

(** test_tools.py, lines 22-67: [sys.exit(1)] when the health check
    fails; otherwise both generation tests run and the script runs off its
    end, which is exit status 0. *)
Definition test_tools : M Z :=
  let* result := health in
  if truthy (dict_get result "ok") then
    let* sprite :=
      generate_sprite "blue wizard with staff" "test_wizard" 48 48
                      "low top-down" "south" true None in
    let* tile :=
      generate_tile "grass block with flowers" "test_grass" 32 false None in
    ret 0%Z
  else ret 1%Z.

End Scripts.
End Scripts.

(** ** The download step of test_generate_sprite.py (step 4, lines 82-109) *)

Module Download.

(** What [http_client.get(url)] returns: [raise_for_status()] raises the
    text of [status_error] when there is one. *)
Record response : Type := {
  status_error : option string;
  content : string
}.

(** httpx, the disk and pathlib, over the rotations of the polled job. *)
Class Web : Type := {
  rotation : Type;
  direction : rotation -> string;
  image_url : rotation -> string;
  net : Type;
  http_get : string -> net -> outcome response * net;
  os_mkdir : string -> net -> outcome unit * net;
  write_bytes : string -> string -> net -> outcome unit * net;
  (** [str(OUTPUT_DIR / "wizard_test")] and [str(Path(p) / name)] *)
  output_path : string;
  joinpath : string -> string -> string
}.

Section Step4.
Context `{W : Web}.

Inductive event : Type :=
| EMkdir (p : string)
| EGet (url : string)
| EWrite (p : string).

Record state : Type := {
  ext : net;
  files : gmap string string;
  log : list event
}.

(** [output_path / f"wizard_test_{direction}.png"] *)
Definition file_of (r : rotation) : string :=
  joinpath output_path ("wizard_test_" +:+ direction r +:+ ".png").

(** The [for rotation in character.rotations] loop inside the [try], with
    the accumulator [saved_files]; [Raises] is an exception on its way to
    the [except] clause. *)
Fixpoint for_rotation_in (rotations : list rotation) (saved_files : list string)
    (st : state) : outcome (list string) * state :=
  match rotations with
  | [] => (Returns saved_files, st)
  | r :: rest =>
      let (got, w) := http_get (image_url r) (ext st) in
      let st := {| ext := w; files := files st; log := log st ++ [EGet (image_url r)] |} in
      match got with
      | Raises e => (Raises e, st)
      | Returns img_response =>
          match status_error img_response with
          | Some e => (Raises e, st)
          | None =>
              let file_path := file_of r in
              let (wrote, w) := write_bytes file_path (content img_response) (ext st) in
              let st := {| ext := w; files := files st;
                           log := log st ++ [EWrite file_path] |} in
              match wrote with
              | Raises e => (Raises e, st)
              | Returns _ =>
                  for_rotation_in rest (saved_files ++ [file_path])
                    {| ext := ext st;
                       files := <[file_path := content img_response]> (files st);
                       log := log st |}
              end
          end
      end
  end.

(** How step 4 ends: all files saved, [exit(1)] from the [except] clause,
    or an exception of [mkdir], which no [try] encloses. *)
Inductive ending : Type :=
| Downloaded (saved_files : list string)
| Exit1 (e : string)
| Uncaught (e : string).

Definition step4 (rotations : list rotation) (st : state) : ending * state :=
  let (made, w) := os_mkdir output_path (ext st) in
  let st := {| ext := w; files := files st; log := log st ++ [EMkdir output_path] |} in
  match made with
  | Raises e => (Uncaught e, st)
  | Returns _ =>
      match for_rotation_in rotations [] st with
      | (Returns saved_files, st') => (Downloaded saved_files, st')
      | (Raises e, st') => (Exit1 e, st')
      end
  end.

(** The URLs requested and the paths written to, in order. *)
Definition gets (l : list event) : list string :=
  flat_map (fun ev => match ev with EGet u => [u] | _ => [] end) l.

Definition writes (l : list event) : list string :=
  flat_map (fun ev => match ev with EWrite p => [p] | _ => [] end) l.

(** The rotations of a list are downloaded one after the other, each
    answered with a good status and written to its file: the world goes
    from [w] to [w'] and the disk from [fs] to [fs']. *)
Inductive fetched
    : net -> gmap string string -> list rotation -> net -> gmap string string -> Prop :=
| fetched_nil w fs : fetched w fs [] w fs
| fetched_cons w fs r rest resp w1 u w2 w3 fs3 :
    http_get (image_url r) w = (Returns resp, w1) ->
    status_error resp = None ->
    write_bytes (file_of r) (content resp) w1 = (Returns u, w2) ->
    fetched w2 (<[file_of r := content resp]> fs) rest w3 fs3 ->
    fetched w fs (r :: rest) w3 fs3.

(** The download of one rotation fails with [e]: the request raises, the
    response has a bad status, or the write raises. *)
Inductive refused (r : rotation) (w : net) (e : string) : net -> Prop :=
| refused_get w1 :
    http_get (image_url r) w = (Raises e, w1) -> refused r w e w1
| refused_status resp w1 :
    http_get (image_url r) w = (Returns resp, w1) ->
    status_error resp = Some e ->
    refused r w e w1
| refused_write resp w1 w2 :
    http_get (image_url r) w = (Returns resp, w1) ->
    status_error resp = None ->
    write_bytes (file_of r) (content resp) w1 = (Raises e, w2) ->
    refused r w e w2.

(** The calls of downloading the rotations of a list, all successful. *)
Definition events_of (rotations : list rotation) : list event :=
  flat_map (fun r => [EGet (image_url r); EWrite (file_of r)]) rotations.

End Step4.

(** A server that has every rotation but the one facing west. *)
Definition cdn : Web := {|
  rotation := string;
  direction := fun r => r;
  image_url := fun r => "https://cdn.example/" +:+ r;
  net := unit;
  http_get := fun url w =>
    (Returns {| status_error := if String.eqb url "https://cdn.example/west"
                                then Some "404 Not Found" else None;
                content := url |}, w);
  os_mkdir := fun _ w => (Returns tt, w);
  write_bytes := fun _ _ w => (Returns tt, w);
  output_path := "/assets/sprites/wizard_test";
  joinpath := fun p name => p +:+ "/" +:+ name
|}.

Definition empty_disk : @state cdn :=
  {| ext := tt : @net cdn; files := ∅; log := [] |}.

End Download.

(** ** What one sprite request does *)

Section SpriteFacts.
Context `{E : Env}.

Ltac run_sprite :=
  unfold generate_sprite, generate_tile, save, mkdir, client_generate,
    try_except, bind, call, call_pure, ret; simpl.

Ltac sent :=
  simpl; unfold requests, sprite_request; rewrite !flat_map_app; simpl;
  rewrite ?app_nil_r; reflexivity.

Ltac failed_with e :=
  eexists;
  (split;
   [|right; exists e;
     split; [reflexivity|split; [reflexivity|]];
     first [left; reflexivity | right; unfold raised; eauto 10]]);
  sent.

(** The remote call raises: the failure dict carries [str(e)], and only
    the request is logged. *)
Lemma generate_sprite_raises description name width height view direction
    no_background output_dir st e w :
  generate_image_pixflux
    (sprite_request description width height view direction no_background)
    (ext st) = (Raises e, w) ->
  generate_sprite description name width height view direction no_background
                  output_dir st
  = (Returns (sprite_failed e description),
     {| ext := w; files := files st;
        log := log st ++ [EGenerate (sprite_request description width height
                                       view direction no_background)] |}).
Proof.
  intros H. run_sprite. unfold sprite_request in H. rewrite H. reflexivity.
Qed.

(** The response has no image. *)
Lemma generate_sprite_no_image description name width height view direction
    no_background output_dir st w :
  generate_image_pixflux
    (sprite_request description width height view direction no_background)
    (ext st) = (Returns None, w) ->
  generate_sprite description name width height view direction no_background
                  output_dir st
  = (Returns (sprite_failed "No image in response" description),
     {| ext := w; files := files st;
        log := log st ++ [EGenerate (sprite_request description width height
                                       view direction no_background)] |}).
Proof.
  intros H. run_sprite. unfold sprite_request in H. rewrite H. reflexivity.
Qed.

(** In every case the call returns one of its two dict literals, never
    raises, sends one request, and saves at most at its own path. *)
Lemma generate_sprite_cases description name width height view direction
    no_background output_dir st :
  exists st',
    requests (log st')
    = requests (log st)
      ++ [sprite_request description width height view direction no_background]
    /\ ((generate_sprite description name width height view direction
                         no_background output_dir st
         = (Returns (sprite_saved description name width height view direction
                                  output_dir), st')
         /\ exists img,
             files st'
             = <[str_path (sprite_file_path name direction output_dir) := img]>
                 (files st)
             /\ log st'
                = log st
                  ++ [EGenerate (sprite_request description width height view
                                   direction no_background);
                      EMkdir (str_path (Path (output_dir_or_default output_dir)));
                      ESave (str_path (sprite_file_path name direction output_dir))])
        \/ (exists e,
              generate_sprite description name width height view direction
                              no_background output_dir st
              = (Returns (sprite_failed e description), st')
              /\ files st' = files st
              /\ (e = "No image in response" \/ raised e))).
Proof.
  run_sprite.
  destruct (generate_image_pixflux _ (ext st)) as [[[img|]|e] w] eqn:Hgen; simpl.
  - destruct (os_mkdir _ w) as [[[]|e] w1] eqn:Hmk; simpl.
    + destruct (pil_image img w1) as [[pimg|e] w2] eqn:Hpil; simpl.
      * destruct (os_save pimg _ w2) as [[[]|e] w3] eqn:Hsave; simpl.
        -- eexists; split; [|left; split; [reflexivity|]]; [sent|].
           exists pimg. simpl. rewrite <- !app_assoc. split; reflexivity.
        -- failed_with e.
      * failed_with e.
    + failed_with e.
  - failed_with "No image in response".
  - failed_with e.
Qed.

(** What a result with [ok] true tells: every collaborator returned, the
    image decoded from the response was saved at the sprite's path, and the
    state is exactly the one these four calls leave. *)
Lemma generate_sprite_saved_inv description name width height view direction
    no_background output_dir st d st' :
  generate_sprite description name width height view direction no_background
                  output_dir st = (Returns d, st') ->
  dict_get d "ok" = VBool true ->
  exists b w0 w1 img w2 w3,
    generate_image_pixflux
      (sprite_request description width height view direction no_background)
      (ext st) = (Returns (Some b), w0)
    /\ os_mkdir (Path (output_dir_or_default output_dir)) w0 = (Returns tt, w1)
    /\ pil_image b w1 = (Returns img, w2)
    /\ os_save img (sprite_file_path name direction output_dir) w2 = (Returns tt, w3)
    /\ d = sprite_saved description name width height view direction output_dir
    /\ st' = {| ext := w3;
                files := <[str_path (sprite_file_path name direction output_dir)
                           := img]> (files st);
                log := log st
                       ++ [EGenerate (sprite_request description width height
                                        view direction no_background);
                           EMkdir (str_path (Path (output_dir_or_default output_dir)));
                           ESave (str_path (sprite_file_path name direction
                                              output_dir))] |}.
Proof.
  unfold generate_sprite, sprite_request, sprite_file_path, save, mkdir,
    client_generate, try_except, bind, call, call_pure, ret; simpl.
  destruct (generate_image_pixflux _ (ext st)) as [[[b|]|e] w0] eqn:Hgen; simpl;
    [|intros H Hok; injection H as <- <-; discriminate Hok..].
  destruct (os_mkdir _ w0) as [[[]|e] w1] eqn:Hmk; simpl;
    [|intros H Hok; injection H as <- <-; discriminate Hok].
  destruct (pil_image b w1) as [[img|e] w2] eqn:Hpil; simpl;
    [|intros H Hok; injection H as <- <-; discriminate Hok].
  destruct (os_save img _ w2) as [[[]|e] w3] eqn:Hsave; simpl;
    [|intros H Hok; injection H as <- <-; discriminate Hok].
  intros H _. injection H as <- <-.
  exists b, w0, w1, img, w2, w3. rewrite <- !app_assoc. simpl.
  split; [reflexivity|]. split; [exact Hmk|]. split; [exact Hpil|].
  split; [exact Hsave|]. split; reflexivity.
Qed.

End SpriteFacts.

(** ** What the loop over the directions does *)

Section BatchFacts.
Context `{E : Env}.
Variables (description name : string) (size : Z) (output_dir : option string).

Local Abbreviation saved :=
  (fun d => sprite_saved description name size size "low top-down" d output_dir).
Local Abbreviation sent :=
  (fun d => sprite_request description size size "low top-down" d true).
Local Abbreviation run := (attempts description name size output_dir).

Lemma attempts_directions directions st :
  map fst (run directions st) = directions.
Proof.
  revert st. induction directions as [|d rest IH]; intros st; simpl.
  - reflexivity.
  - destruct (generate_sprite _ _ _ _ _ d _ _ st) as [r st1].
    simpl. f_equal. apply IH.
Qed.

(** Each sub-request returned one of the two dict literals of
    [generate_sprite]. *)
Lemma attempts_shape directions st :
  Forall (fun a => snd a = Returns (saved (fst a))
                   \/ exists e, snd a = Returns (sprite_failed e description)
                                /\ (e = "No image in response" \/ raised e))
         (run directions st).
Proof.
  revert st. induction directions as [|d rest IH]; intros st; simpl.
  - constructor.
  - destruct (generate_sprite_cases description name size size "low top-down"
                d true output_dir st)
      as (st1 & _ & [[Hrun _] | (e & Hrun & _ & He)]);
      rewrite Hrun; constructor; simpl; eauto.
Qed.

Lemma for_direction_in_spec directions : forall results errors st,
  exists st',
    for_direction_in description name size output_dir directions results errors st
    = (Returns (results
                ++ map (fun d => VDict (saved d))
                       (ok_directions (run directions st)),
                errors ++ map error_entry (failed_attempts (run directions st))),
       st')
    /\ requests (log st') = requests (log st) ++ map sent directions.
Proof.
  induction directions as [|d rest IH]; intros results errors st; simpl.
  - exists st. unfold ret. rewrite !app_nil_r. split; reflexivity.
  - unfold bind.
    destruct (generate_sprite_cases description name size size "low top-down"
                d true output_dir st) as (st1 & Hreq & [[Hrun _] | (e & Hrun & _)]);
      rewrite Hrun; simpl.
    + destruct (IH (results ++ [VDict (saved d)]) errors st1) as (st' & Hloop & Hlog).
      exists st'. rewrite Hloop, Hlog, Hreq, <- !app_assoc. split; reflexivity.
    + destruct (IH results
                  (errors ++ [VDict [("direction", VStr d); ("error", VStr e)]])
                  st1) as (st' & Hloop & Hlog).
      exists st'. rewrite Hloop, Hlog, Hreq, <- !app_assoc. split; reflexivity.
Qed.

Lemma comprehension_direction oks : forall st,
  comprehension "direction" (map (fun d => VDict (saved d)) oks) st
  = (Returns (map VStr oks), st).
Proof.
  induction oks as [|d rest IH]; intros st; simpl.
  - reflexivity.
  - unfold bind, getitem, ret. simpl. rewrite IH. reflexivity.
Qed.

Lemma comprehension_file_path oks : forall st,
  comprehension "file_path" (map (fun d => VDict (saved d)) oks) st
  = (Returns (map (fun d => VStr (str_path (sprite_file_path name d output_dir)))
                  oks), st).
Proof.
  induction oks as [|d rest IH]; intros st; simpl.
  - reflexivity.
  - unfold bind, getitem, ret. simpl. rewrite IH. reflexivity.
Qed.

(** The whole tool: it returns, and what it returns is determined by which
    sub-requests succeeded. *)
Lemma generate_character_set_spec directions st :
  exists st',
    generate_character_set description name size directions output_dir st
    = (Returns (character_set_result description name size output_dir
                  (ok_directions (run (requested directions) st))
                  (failed_attempts (run (requested directions) st))),
       st')
    /\ requests (log st') = requests (log st) ++ map sent (requested directions).
Proof.
  unfold generate_character_set. fold (requested directions).
  destruct (for_direction_in_spec (requested directions) [] [] st)
    as (st' & Hloop & Hlog).
  exists st'. split; [|exact Hlog].
  unfold bind at 1. rewrite Hloop. simpl.
  destruct (ok_directions (run (requested directions) st)) as [|first oks] eqn:Hoks.
  - reflexivity.
  - pose proof (comprehension_direction (first :: oks)) as Hdirs.
    pose proof (comprehension_file_path (first :: oks)) as Hpaths.
    cbn [map] in Hdirs, Hpaths |- *.
    unfold bind at 1. rewrite Hdirs.
    unfold bind at 1. rewrite Hpaths.
    unfold bind, subscript, getitem, Path_of_value, ret. simpl.
    rewrite !length_map.
    destruct (failed_attempts (run (requested directions) st)); reflexivity.
Qed.

End BatchFacts.

(** ** Substring tests *)

Section Substrings.

Lemma prefix_spec sub : forall s,
  String.prefix sub s = true <-> exists post, s = sub +:+ post.
Proof.
  induction sub as [|c sub IH]; intros s.
  - split; [intros _; exists s; reflexivity | intros _; destruct s; reflexivity].
  - destruct s as [|c' s]; simpl.
    + split; [discriminate | intros [post H]; discriminate].
    + destruct (Ascii.ascii_dec c c') as [->|Hne].
      * rewrite IH. split; intros [post H]; exists post.
        -- rewrite H. reflexivity.
        -- injection H as H. exact H.
      * split; [discriminate | intros [post H]; injection H as H1 H2; congruence].
Qed.

Lemma contains_spec sub : forall s,
  PyStr.contains sub s = true <-> PyStr.substring_of sub s.
Proof.
  unfold PyStr.substring_of.
  induction s as [|c s IH]; cbn [PyStr.contains].
  - destruct (String.prefix sub "") eqn:Hp.
    + split; [intros _ | intros _; reflexivity].
      apply prefix_spec in Hp. destruct Hp as [post Hp].
      exists "", post. exact Hp.
    + split; [discriminate|]. intros (pre & post & H).
      destruct pre as [|c pre]; simpl in H; [|discriminate].
      assert (String.prefix sub "" = true) as Hp'
        by (apply prefix_spec; exists post; exact H).
      congruence.
  - destruct (String.prefix sub (String c s)) eqn:Hp.
    + split; [intros _ | intros _; reflexivity].
      apply prefix_spec in Hp. destruct Hp as [post Hp].
      exists "", post. exact Hp.
    + rewrite IH. split.
      * intros (pre & post & H). exists (String c pre), post.
        simpl. rewrite H. reflexivity.
      * intros (pre & post & H). destruct pre as [|c' pre]; simpl in H.
        -- assert (String.prefix sub (String c s) = true) as Hp'
             by (apply prefix_spec; exists post; exact H).
           congruence.
        -- injection H as _ H. exists pre, post. exact H.
Qed.

End Substrings.

(** ** The tools, one request at a time *)

Section SingleRequests.
Context `{E : Env}.

(** The state after a request that wrote nothing: only the remote call is
    on the log. *)
Local Abbreviation quiet st w req :=
  {| ext := w; files := files st; log := log st ++ [EGenerate req] |}.

(** C4 (amended): [generate_sprite] writes nothing when the remote call
    raises or the response has no image; it then returns the failure dict
    with the exception's text, respectively with the literal reason
    "No image in response" (capital N).  When it reports [ok], it has
    saved exactly once, at the path built from the output directory, the
    name and the direction, and returns that path with the echoed
    arguments; when a later step raises instead, it reports the failure
    and leaves the files as they were. *)
Theorem generate_sprite_writes description name width height view direction
    no_background output_dir st :
  let req := sprite_request description width height view direction no_background in
  let file_path := str_path (sprite_file_path name direction output_dir) in
  match generate_image_pixflux req (ext st) with
  | (Raises e, w) =>
      generate_sprite description name width height view direction
                      no_background output_dir st
      = (Returns (sprite_failed e description), quiet st w req)
  | (Returns None, w) =>
      generate_sprite description name width height view direction
                      no_background output_dir st
      = (Returns (sprite_failed "No image in response" description), quiet st w req)
  | (Returns (Some _), _) =>
      exists d st',
        generate_sprite description name width height view direction
                        no_background output_dir st = (Returns d, st')
        /\ if truthy (dict_get d "ok")
           then d = sprite_saved description name width height view direction
                                 output_dir
                /\ saves (log st') = saves (log st) ++ [file_path]
                /\ exists img, files st' = <[file_path := img]> (files st)
           else (exists e, d = sprite_failed e description)
                /\ files st' = files st
  end.
Proof.
  intros req file_path.
  destruct (generate_image_pixflux req (ext st)) as [[[img|]|e] w] eqn:Hgen.
  - destruct (generate_sprite_cases description name width height view direction
                no_background output_dir st)
      as (st' & _ & [(Hrun & img' & Hfiles & Hlog) | (e & Hrun & Hfiles & _)]);
      eexists; exists st'; (split; [exact Hrun|]); simpl.
    + split; [reflexivity|]. split; [|exists img'; exact Hfiles].
      rewrite Hlog. unfold saves. rewrite flat_map_app. reflexivity.
    + split; [exists e; reflexivity | exact Hfiles].
  - apply generate_sprite_no_image. exact Hgen.
  - apply generate_sprite_raises. exact Hgen.
Qed.

(** C5 (amended): the filename is [sprite_filename name direction], a
    function of the name and the direction alone; two successful calls in
    a row with the same name, direction and output directory report the
    same path, and the second one adds no file: it replaces the first
    one's. *)
Theorem same_output_dir_same_path name direction output_dir st :
  same_path_twice name direction output_dir output_dir st.
Proof.
  intros description1 width1 height1 view1 nb1 description2 width2 height2
         view2 nb2 d1 st1 d2 st2 Hrun1 Hok1 Hrun2 Hok2.
  destruct (generate_sprite_saved_inv _ _ _ _ _ _ _ _ _ _ _ Hrun1 Hok1)
    as (b1 & w0 & w1 & img1 & w2 & w3 & _ & _ & _ & _ & -> & ->).
  destruct (generate_sprite_saved_inv _ _ _ _ _ _ _ _ _ _ _ Hrun2 Hok2)
    as (b2 & v0 & v1 & img2 & v2 & v3 & Hgen2 & _ & Hpil2 & _ & -> & ->).
  cbn [ext files log] in *.
  split; [reflexivity|]. split; [reflexivity|]. split; [reflexivity|].
  split; [rewrite insert_insert_eq, !dom_insert_L; reflexivity|].
  exists (str_path (sprite_file_path name direction output_dir)), img1, img2.
  split; [reflexivity|]. split; [reflexivity|].
  split; [unfold saves; rewrite flat_map_app; reflexivity|].
  split; [exists b2, v1, v2; rewrite Hgen2; split; [reflexivity | exact Hpil2]|].
  split; [reflexivity|].
  unfold saves. rewrite !flat_map_app. reflexivity.
Qed.

(** C6: when the balance lookup raises, [health] returns [ok] false with
    the error text, and [token_valid] is false exactly when that text
    contains "401" or "Unauthorized"; when the lookup returns, [health]
    returns [ok] true with the balance ([0.0] when the balance object has
    no [usd]). *)
Theorem health_classifies st :
  match get_balance (ext st) with
  | (Raises e, w) =>
      exists token_valid,
        health st
        = (Returns [ ("ok", VBool false); ("error", VStr e);
                     ("token_valid", VBool token_valid) ],
           {| ext := w; files := files st; log := log st ++ [EGetBalance] |})
        /\ (token_valid = false
            <-> PyStr.substring_of "401" e \/ PyStr.substring_of "Unauthorized" e)
  | (Returns balance, w) =>
      exists d,
        health st
        = (Returns d,
           {| ext := w; files := files st; log := log st ++ [EGetBalance] |})
        /\ dict_get d "ok" = VBool true
        /\ dict_get d "token_valid" = VBool true
        /\ dict_get d "balance_usd"
           = VFloat (match balance with Some usd => usd | None => float_zero end)
  end.
Proof.
  unfold health, try_except, bind, call, ret.
  destruct (get_balance (ext st)) as [[balance|e] w]; simpl.
  - eexists. split; [reflexivity|]. repeat split.
  - eexists. split; [reflexivity|].
    rewrite <- !contains_spec.
    destruct (PyStr.contains "401" e), (PyStr.contains "Unauthorized" e);
      simpl; intuition congruence.
Qed.

(** C10: with an empty list of directions, [generate_character_set] makes
    no sub-request and no write, the state is exactly what it was, and the
    result is [ok] false with the error "Failed to generate any sprites"
    and an empty [errors] list. *)
Theorem empty_directions description name size output_dir st :
  generate_character_set description name size (Some []) output_dir st
  = (Returns [ ("ok", VBool false);
               ("error", VStr "Failed to generate any sprites");
               ("errors", VList []) ],
     st).
Proof. reflexivity. Qed.

End SingleRequests.

(** ** Reading the result of a set *)

Section SetResult.
Context `{E : Env}.
Variables (description name : string) (size : Z) (output_dir : option string).

Local Abbreviation result := (character_set_result description name size output_dir).

Lemma strs_VStr (l : list string) : strs (map VStr l) = l.
Proof. induction l as [|x l IH]; simpl; [|rewrite IH]; reflexivity. Qed.

Lemma strs_VStr_with {A} (f : A -> string) (l : list A) :
  strs (map (fun x => VStr (f x)) l) = map f l.
Proof. induction l as [|x l IH]; simpl; [|rewrite IH]; reflexivity. Qed.

Lemma column_direction fails :
  column "direction" (map error_entry fails) = map (fun a => VStr (fst a)) fails.
Proof. induction fails as [|a l IH]; simpl; [|rewrite IH]; reflexivity. Qed.

Lemma column_error fails :
  column "error" (map error_entry fails) = map (fun a => reported (snd a)) fails.
Proof. induction fails as [|a l IH]; simpl; [|rewrite IH]; reflexivity. Qed.

Lemma error_entries_result oks fails :
  error_entries (result oks fails) = map error_entry fails.
Proof. destruct oks, fails; reflexivity. Qed.

Lemma successes_result oks fails : successes (result oks fails) = oks.
Proof.
  destruct oks as [|first oks]; [reflexivity|].
  unfold successes. simpl. f_equal. apply strs_VStr.
Qed.

Lemma written_result oks fails :
  written (result oks fails)
  = map (fun d => str_path (sprite_file_path name d output_dir)) oks.
Proof.
  destruct oks as [|first oks]; [reflexivity|].
  unfold written. simpl. f_equal.
  apply (strs_VStr_with (fun d => str_path (sprite_file_path name d output_dir))).
Qed.

Lemma failures_result oks fails : failures (result oks fails) = map fst fails.
Proof.
  unfold failures. rewrite error_entries_result, column_direction.
  apply (strs_VStr_with fst).
Qed.

Lemma reasons_result oks fails :
  reasons (result oks fails) = map (fun a => reported (snd a)) fails.
Proof. unfold reasons. rewrite error_entries_result. apply column_error. Qed.

Lemma ok_result oks fails :
  dict_get (result oks fails) "ok"
  = VBool (match oks with [] => false | _ => true end).
Proof. destruct oks; reflexivity. Qed.

Lemma structured_result oks fails : structured (result oks fails) = true.
Proof. destruct oks; reflexivity. Qed.

(** Splitting the sub-requests by outcome loses none and keeps the order. *)
Lemma split_by_outcome (l : list (string * outcome dict)) :
  ok_directions l ++ map fst (failed_attempts l) ≡ₚ map fst l.
Proof.
  unfold ok_directions, failed_attempts.
  induction l as [|a l IH]; simpl; [reflexivity|].
  destruct (succeeded (snd a)); simpl.
  - constructor. exact IH.
  - rewrite <- Permutation_middle. constructor. exact IH.
Qed.

Lemma ok_directions_sublist (l : list (string * outcome dict)) :
  sublist (ok_directions l) (map fst l).
Proof.
  unfold ok_directions.
  induction l as [|a l IH]; simpl; [constructor|].
  destruct (succeeded (snd a)); simpl; constructor; exact IH.
Qed.

Lemma failed_attempts_sublist (l : list (string * outcome dict)) :
  sublist (map fst (failed_attempts l)) (map fst l).
Proof.
  unfold failed_attempts.
  induction l as [|a l IH]; simpl; [constructor|].
  destruct (succeeded (snd a)); simpl; constructor; exact IH.
Qed.

Lemma ok_directions_nil (l : list (string * outcome dict)) :
  ok_directions l = [] <-> Forall (fun a => succeeded (snd a) = false) l.
Proof.
  unfold ok_directions.
  induction l as [|a l IH]; simpl; [split; [constructor | reflexivity]|].
  destruct (succeeded (snd a)) eqn:Ha; simpl.
  - split; [discriminate | intros H; inversion H; congruence].
  - rewrite IH. split; [intros H; constructor; assumption | intros H; inversion H; assumption].
Qed.

Lemma failed_attempts_all (l : list (string * outcome dict)) :
  Forall (fun a => succeeded (snd a) = false) l -> failed_attempts l = l.
Proof.
  unfold failed_attempts. induction 1 as [|a l Ha _ IH]; simpl; [reflexivity|].
  rewrite Ha. simpl. rewrite IH. reflexivity.
Qed.

End SetResult.

(** ** The claims about a set of directions *)

Section SetClaims.
Context `{E : Env}.
Variables (description name : string) (size : Z) (output_dir : option string).

Local Abbreviation run := (attempts description name size output_dir).

(** C1 (amended): the successes and the failures of a set, put together,
    are a rearrangement of the requested list: every requested occurrence
    of a direction lands in exactly one of the two.  When no direction is
    requested twice, each requested direction is in exactly one of the two
    lists, in neither twice, and nothing else is listed. *)
Theorem each_direction_once directions st :
  exists d st',
    generate_character_set description name size directions output_dir st
    = (Returns d, st')
    /\ successes d ++ failures d ≡ₚ requested directions
    /\ (NoDup (requested directions) -> exactly_once (requested directions) d).
Proof.
  destruct (generate_character_set_spec description name size output_dir
              directions st) as (st' & Hrun & _).
  eexists; exists st'. split; [exact Hrun|].
  rewrite successes_result, failures_result.
  assert (ok_directions (run (requested directions) st)
          ++ map fst (failed_attempts (run (requested directions) st))
          ≡ₚ requested directions) as Hperm.
  { rewrite split_by_outcome. rewrite attempts_directions. reflexivity. }
  split; [exact Hperm|].
  intros Hnodup. unfold exactly_once.
  rewrite successes_result, failures_result. split.
  - rewrite Hperm. exact Hnodup.
  - intros x. rewrite <- !list_elem_of_In. rewrite Hperm. reflexivity.
Qed.

(** C2 (amended): the set returns [ok] true exactly when one of its
    sub-requests succeeded.  When all of them failed it returns [ok] false
    and [errors] has one entry per requested direction, in order, each
    with the reason its sub-request reported: the literal
    "No image in response" or the text of the exception raised, which is
    non-empty whenever no collaborator raises an exception with an empty
    text. *)
Theorem set_reports_failures directions st :
  exists d st',
    generate_character_set description name size directions output_dir st
    = (Returns d, st')
    /\ reports_every_failure sprite_reason (requested directions)
         (run (requested directions) st) d
    /\ (raises_text ->
        reports_every_failure nonempty_text (requested directions)
          (run (requested directions) st) d).
Proof.
  destruct (generate_character_set_spec description name size output_dir
              directions st) as (st' & Hrun & _).
  eexists; exists st'. split; [exact Hrun|].
  set (l := run (requested directions) st).
  assert (forall good : value -> Prop,
            (forall v, sprite_reason v -> good v) ->
            reports_every_failure good (requested directions) l
              (character_set_result description name size output_dir
                 (ok_directions l) (failed_attempts l))) as Hgood.
  { intros good Hsub. split.
    - rewrite ok_result. rewrite List.Exists_exists.
      destruct (ok_directions l) as [|first oks] eqn:Hoks.
      + split; [discriminate|]. intros (a & Hin & Ha).
        apply ok_directions_nil in Hoks.
        rewrite List.Forall_forall in Hoks. rewrite (Hoks a Hin) in Ha.
        discriminate.
      + split; [intros _ | reflexivity].
        destruct (List.Exists_dec (fun a => succeeded (snd a) = true) l)
          as [Hex | Hno].
        * intros a. destruct (succeeded (snd a)); [left | right]; congruence.
        * apply List.Exists_exists. exact Hex.
        * exfalso. assert (ok_directions l = []) as Hnil; [|congruence].
          apply ok_directions_nil. apply List.Forall_forall. intros a Hin.
          destruct (succeeded (snd a)) eqn:Ha; [|reflexivity].
          exfalso. apply Hno. apply List.Exists_exists. eauto.
    - intros Hall.
      rewrite ok_result, failures_result, reasons_result.
      rewrite (proj2 (ok_directions_nil l) Hall), (failed_attempts_all l Hall).
      split; [reflexivity|]. split; [apply attempts_directions|].
      split; [reflexivity|].
      apply List.Forall_forall. intros v Hv. apply Hsub.
      apply List.in_map_iff in Hv. destruct Hv as (a & <- & Hin).
      pose proof (attempts_shape description name size output_dir
                    (requested directions) st) as Hshape.
      rewrite List.Forall_forall in Hshape, Hall.
      destruct (Hshape a Hin) as [Hsaved | (e & Hfailed & He)].
      + specialize (Hall a Hin). rewrite Hsaved in Hall. discriminate.
      + rewrite Hfailed. exists e. split; [reflexivity | exact He]. }
  split.
  - apply Hgood. auto.
  - intros Htext. apply Hgood. intros v (e & -> & He).
    exists e. split; [reflexivity|].
    destruct He as [-> | He]; [discriminate|].
    intros ->. apply Htext. exact He.
Qed.

(** C3: a set sends exactly one request per requested direction, in the
    order of the list, whatever the outcome of each: the requests on the
    log after the call are those before it followed by one per direction,
    and the sub-requests replayed are one per direction. *)
Theorem every_direction_attempted_once directions st :
  exists d st',
    generate_character_set description name size directions output_dir st
    = (Returns d, st')
    /\ requests (log st')
       = requests (log st)
         ++ map (fun x => sprite_request description size size "low top-down" x true)
                (requested directions)
    /\ map fst (run (requested directions) st) = requested directions.
Proof.
  destruct (generate_character_set_spec description name size output_dir
              directions st) as (st' & Hrun & Hlog).
  eexists; exists st'. split; [exact Hrun|]. split; [exact Hlog|].
  apply attempts_directions.
Qed.

(** C9: the [directions] list, the [files] list and the [errors] list of a
    set keep the order of the requested list.  Replaying the sub-requests
    in request order, one per requested entry, [directions] is the entries
    whose sub-request succeeded, in that order, and [errors] is the entries
    whose sub-request failed, in that order, each with the reason that
    sub-request reported; so both are subsequences of the requested list,
    and the i-th file is the file of the i-th success. *)
Theorem input_order_preserved directions st :
  exists d st',
    generate_character_set description name size directions output_dir st
    = (Returns d, st')
    /\ map fst (run (requested directions) st) = requested directions
    /\ successes d = ok_directions (run (requested directions) st)
    /\ failures d = map fst (failed_attempts (run (requested directions) st))
    /\ reasons d
       = map (fun a => reported (snd a))
             (failed_attempts (run (requested directions) st))
    /\ sublist (successes d) (requested directions)
    /\ sublist (failures d) (requested directions)
    /\ written d
       = map (fun x => str_path (sprite_file_path name x output_dir)) (successes d).
Proof.
  destruct (generate_character_set_spec description name size output_dir
              directions st) as (st' & Hrun & _).
  eexists; exists st'. split; [exact Hrun|].
  rewrite successes_result, failures_result, written_result, reasons_result.
  pose proof (ok_directions_sublist (run (requested directions) st)) as Hok.
  pose proof (failed_attempts_sublist (run (requested directions) st)) as Hfail.
  rewrite attempts_directions in Hok, Hfail.
  split; [apply attempts_directions|].
  repeat split; assumption.
Qed.

End SetClaims.

(** ** No tool lets an exception escape *)

Section Boundary.
Context `{E : Env}.

Lemma health_returns st :
  exists d st', health st = (Returns d, st') /\ structured d = true.
Proof.
  unfold health, try_except, bind, call, ret.
  destruct (get_balance (ext st)) as [[balance|e] w]; simpl;
    eexists; eexists; split; reflexivity.
Qed.

Lemma generate_tile_returns description name size isometric output_dir st :
  exists d st',
    generate_tile description name size isometric output_dir st = (Returns d, st')
    /\ structured d = true.
Proof.
  unfold generate_tile, save, mkdir, client_generate, try_except, bind, call,
    call_pure, ret; simpl.
  destruct (generate_image_pixflux _ (ext st)) as [[[img|]|e] w]; simpl;
    [|eexists; eexists; split; reflexivity..].
  destruct (os_mkdir _ w) as [[[]|e] w1]; simpl;
    [|eexists; eexists; split; reflexivity].
  destruct (pil_image img w1) as [[pimg|e] w2]; simpl;
    [|eexists; eexists; split; reflexivity].
  destruct (os_save pimg _ w2) as [[[]|e] w3]; simpl;
    eexists; eexists; split; reflexivity.
Qed.

(** C8: whatever the arguments and whatever the remote client, PIL and
    the filesystem do, raising included, each of [health],
    [generate_sprite], [generate_character_set] and [generate_tile]
    returns a dict, never an exception; the dict has a boolean [ok], and
    an [error] string when [ok] is false. *)
Theorem tools_return_structured_results :
  (forall st,
      exists d st', health st = (Returns d, st') /\ structured d = true)
  /\ (forall description name width height view direction no_background
             output_dir st,
         exists d st',
           generate_sprite description name width height view direction
                           no_background output_dir st = (Returns d, st')
           /\ structured d = true)
  /\ (forall description name size directions output_dir st,
         exists d st',
           generate_character_set description name size directions output_dir st
           = (Returns d, st')
           /\ structured d = true)
  /\ (forall description name size isometric output_dir st,
         exists d st',
           generate_tile description name size isometric output_dir st
           = (Returns d, st')
           /\ structured d = true).
Proof.
  repeat split.
  - intros st. apply health_returns.
  - intros description name width height view direction nb output_dir st.
    destruct (generate_sprite_cases description name width height view
                direction nb output_dir st)
      as (st' & _ & [[Hrun _] | (e & Hrun & _)]);
      eexists; exists st'; (split; [exact Hrun | reflexivity]).
  - intros description name size directions output_dir st.
    destruct (generate_character_set_spec description name size output_dir
                directions st) as (st' & Hrun & _).
    eexists; exists st'. split; [exact Hrun | apply structured_result].
  - intros. apply generate_tile_returns.
Qed.

End Boundary.

(** ** The polling loop *)

Section Polling.
Import PollLoop.
Context `{C : PollLoop.Client}.
Open Scope Z_scope.

(** However the loop is left, the log has grown by whole rounds of one
    sleep and one poll; a [break] follows a non-empty poll at once. *)
Lemma while_waited_rounds poll_interval max_wait fuel :
  forall waited st out st',
    while_waited fuel poll_interval max_wait waited st = Some (out, st') ->
    exists n : nat,
      log st' = log st ++ rounds poll_interval n
      /\ match out with
         | Break w rotations =>
             rotations <> [] /\ w = waited + Z.of_nat n * poll_interval /\ (0 < n)%nat
         | CondFalse w => w = waited + Z.of_nat n * poll_interval /\ max_wait <= w
         | Exit1 _ => (0 < n)%nat
         end.
Proof.
  induction fuel as [|fuel IH]; intros waited st out st' H; simpl in H.
  - discriminate.
  - destruct (waited <? max_wait) eqn:Hlt.
    + destruct (get_character (ext st)) as [[rots|e] w] eqn:Hget.
      * destruct rots as [|r rots].
        -- apply IH in H. destruct H as (n & Hlog & Hout).
           exists (S n). simpl in Hlog. rewrite Hlog, <- !app_assoc. simpl.
           split; [reflexivity|].
           destruct out; [destruct Hout as (? & ? & ?) | destruct Hout | ];
             repeat split; try assumption; lia.
        -- injection H as <- <-. exists 1%nat. simpl.
           rewrite <- app_assoc. simpl.
           repeat split; [discriminate | lia | lia].
      * injection H as <- <-. exists 1%nat. simpl.
        rewrite <- app_assoc. simpl. split; [reflexivity | lia].
    + injection H as <- <-. exists 0%nat. simpl. rewrite app_nil_r.
      apply Z.ltb_ge in Hlt. repeat split; lia.
Qed.

(** With a positive interval the loop ends within [enough] iterations. *)
Lemma while_waited_terminates poll_interval max_wait :
  0 < poll_interval ->
  forall fuel waited st,
    (Z.to_nat (max_wait - waited) < fuel)%nat ->
    exists out st', while_waited fuel poll_interval max_wait waited st = Some (out, st').
Proof.
  intros Hpos. induction fuel as [|fuel IH]; intros waited st Hfuel; [lia|].
  simpl. destruct (waited <? max_wait) eqn:Hlt; [|eauto].
  apply Z.ltb_lt in Hlt.
  destruct (get_character (ext st)) as [[[|r rots]|e] w]; eauto.
  apply IH. lia.
Qed.

End Polling.

Section PollingClaim.
Import PollLoop.
Open Scope Z_scope.

Lemma replay_S `{C : Client} n r :
  replay (S n) r
  = let (o, r1) := get_character r in
    let (os, r2) := replay n r1 in
    (o :: os, r2).
Proof. reflexivity. Qed.

(** However the loop is left: the polls that found nothing, the poll or
    the clock that ended it, and the rounds on the log. *)
Lemma while_waited_trace `{C : Client} poll_interval max_wait fuel :
  forall waited st out st',
    while_waited fuel poll_interval max_wait waited st = Some (out, st') ->
    exists k : nat,
      match out with
      | Break w rotations =>
          replay (S k) (ext st) = (empties k ++ [Returns rotations], ext st')
          /\ rotations <> []
          /\ log st' = log st ++ rounds poll_interval (S k)
          /\ w = waited + (Z.of_nat k + 1) * poll_interval
          /\ waited + Z.of_nat k * poll_interval < max_wait
      | Exit1 e =>
          replay (S k) (ext st) = (empties k ++ [Raises e], ext st')
          /\ log st' = log st ++ rounds poll_interval (S k)
          /\ waited + Z.of_nat k * poll_interval < max_wait
      | CondFalse w =>
          replay k (ext st) = (empties k, ext st')
          /\ log st' = log st ++ rounds poll_interval k
          /\ w = waited + Z.of_nat k * poll_interval
          /\ max_wait <= w
          /\ (k = 0%nat \/ waited + (Z.of_nat k - 1) * poll_interval < max_wait)
      end.
Proof.
  induction fuel as [|fuel IH]; intros waited st out st' H; simpl in H.
  - discriminate.
  - destruct (waited <? max_wait) eqn:Hlt.
    + apply Z.ltb_lt in Hlt.
      destruct (get_character (ext st)) as [[rots|e] w] eqn:Hget.
      * destruct rots as [|r rots].
        -- apply IH in H. destruct H as (k & Hout). exists (S k).
           cbn [ext log] in Hout.
           destruct out as [w' rots' | w' | e'].
           ++ destruct Hout as (Hrep & Hne & Hlog & -> & Hk).
              rewrite replay_S, Hget, Hrep, Hlog, <- !app_assoc.
              split; [reflexivity|]. split; [exact Hne|].
              split; [reflexivity|]. split; lia.
           ++ destruct Hout as (Hrep & Hlog & -> & Hge & Hk).
              rewrite replay_S, Hget, Hrep, Hlog, <- !app_assoc.
              split; [reflexivity|]. split; [reflexivity|].
              split; [lia|]. split; [lia|]. right. lia.
           ++ destruct Hout as (Hrep & Hlog & Hk).
              rewrite replay_S, Hget, Hrep, Hlog, <- !app_assoc.
              split; [reflexivity|]. split; [reflexivity|]. lia.
        -- injection H as <- <-. exists 0%nat. cbn [ext log].
           rewrite replay_S, Hget. simpl. rewrite <- app_assoc.
           split; [reflexivity|]. split; [discriminate|].
           split; [reflexivity|]. split; lia.
      * injection H as <- <-. exists 0%nat. cbn [ext log].
        rewrite replay_S, Hget. simpl. rewrite <- app_assoc.
        split; [reflexivity|]. split; [reflexivity|]. lia.
    + apply Z.ltb_ge in Hlt. injection H as <- <-. exists 0%nat. simpl.
      rewrite app_nil_r. split; [reflexivity|]. split; [reflexivity|].
      split; [lia|]. split; [lia|]. left. reflexivity.
Qed.

(** C7 (amended): the loop sleeps first and polls after each sleep: the
    log of a wait is a number of rounds, each one sleep of exactly
    [poll_interval] seconds followed by one poll.  A poll that returns
    rotations stops the loop at once, with no further sleep or poll; a poll
    that raises stops it too; a poll that finds nothing is followed by the
    next round exactly while [waited < max_wait], and by a timeout
    otherwise.  With a positive interval the wait always ends.  With
    [poll_interval = 5] and [max_wait = 10], against a status that is empty
    on the first two polls and non-empty on the third, there are exactly
    two sleeps of 5 seconds and two polls; the third poll is never made and
    the wait ends as a timeout. *)
Theorem sleeps_before_every_poll :
  (forall (C : Client) (poll_interval max_wait : Z) (st : state),
      0 < poll_interval ->
      exists v st' (k : nat),
        await_completion (enough max_wait 0) poll_interval max_wait st
        = Some (v, st')
        /\ wait_ends poll_interval max_wait st v st' k)
  /\ (exists st',
      await_completion (C := Scenario.ready_at) (enough 10 0) 5 10
        (Scenario.waiting 2)
      = Some (TimedOut, st')
      /\ log st' = [ESleep 5; EPoll; ESleep 5; EPoll]
      /\ sleeps (log st') = [5; 5]
      /\ polls (log st') = 2%nat).
Proof.
  split; [|eexists; repeat split].
  intros C poll_interval max_wait st Hpos.
  destruct (while_waited_terminates poll_interval max_wait Hpos
              (enough max_wait 0) 0 st) as (out & st' & Hloop);
    [unfold enough; lia|].
  destruct (while_waited_trace _ _ _ _ _ _ _ Hloop) as (k & Hout).
  unfold await_completion. rewrite Hloop. unfold wait_ends.
  destruct out as [w rotations | w | e].
  - destruct Hout as (Hrep & Hne & Hlog & -> & Hk).
    eexists; exists st', k. split; [reflexivity|].
    left. exists rotations.
    split; [exact Hrep|]. split; [exact Hne|]. split; [exact Hlog|].
    split; [lia|].
    replace (0 + (Z.of_nat k + 1) * poll_interval)
      with ((Z.of_nat k + 1) * poll_interval) by lia.
    destruct ((Z.of_nat k + 1) * poll_interval >=? max_wait) eqn:Hcmp.
    + split; [right; reflexivity | lia].
    + split; [left; reflexivity | reflexivity].
  - destruct Hout as (Hrep & Hlog & -> & Hge & Hk).
    eexists; exists st', k. split; [reflexivity|].
    right; right.
    split; [exact Hrep|]. split; [exact Hlog|]. split; [lia|].
    split; [lia|].
    destruct (0 + Z.of_nat k * poll_interval >=? max_wait) eqn:Hcmp;
      [reflexivity | lia].
  - destruct Hout as (Hrep & Hlog & Hk).
    eexists; exists st', k. split; [reflexivity|].
    right; left. exists e.
    split; [exact Hrep|]. split; [exact Hlog|]. split; [lia | reflexivity].
Qed.

End PollingClaim.

(** ** The claims at concrete inputs *)

Import Scenario.

(** Closing an equation between closed terms by evaluating both sides. *)
Ltac evaluate :=
  lazymatch goal with
  | |- ?lhs = ?rhs => vm_cast_no_check (@eq_refl _ rhs)
  end.

(** The example of the specification: one coin, facing south. *)
Example coin_south :
  fst (generate_sprite (E := scripted) "golden coin" "coin" 24 24 "top-down"
         "south" true (Some "/tmp/out")
         (start (Returns None) [Image "0123456789"]))
  = Returns [ ("ok", VBool true);
              ("file_path", VStr "/tmp/out/coin_south.png");
              ("filename", VStr "coin_south.png");
              ("size", VStr "24x24");
              ("direction", VStr "south");
              ("view", VStr "top-down");
              ("description", VStr "golden coin");
              ("message", VStr "✅ Sprite saved to /tmp/out/coin_south.png") ].
Proof. evaluate. Qed.

(** C1 as stated fails when a direction is requested twice: the first
    request for north succeeds and the second fails, so north is among the
    successes and among the failures. *)
Lemma repeated_direction_in_both_lists :
  ~ exists d st',
      generate_character_set (E := scripted) "blue wizard" "wizard" 48
        (Some ["north"; "north"]) None
        (start (Returns None) [Image "0123456789"; Fails "429 Too Many Requests"])
      = (Returns d, st')
      /\ exactly_once ["north"; "north"] d.
Proof.
  intros (d & st' & Hrun & Hnodup & _).
  assert (fst (generate_character_set (E := scripted) "blue wizard" "wizard" 48
                 (Some ["north"; "north"]) None
                 (start (Returns None)
                    [Image "0123456789"; Fails "429 Too Many Requests"]))
          = Returns (character_set_result (E := scripted) "blue wizard" "wizard"
                       48 None ["north"]
                       [("north",
                         Returns (sprite_failed "429 Too Many Requests"
                                    "blue wizard"))]))
    as Hd by evaluate.
  rewrite Hrun in Hd. cbn [fst] in Hd. injection Hd as ->.
  vm_compute in Hnodup.
  apply NoDup_cons in Hnodup. destruct Hnodup as [Hnotin _].
  apply Hnotin. apply list_elem_of_here.
Qed.

Lemma each_direction_once_witness :
  NoDup ["north"; "south"]
  /\ exists d st',
       generate_character_set (E := scripted) "blue wizard" "wizard" 48
         (Some ["north"; "south"]) None
         (start (Returns None) [Image "0123456789"; Fails "429 Too Many Requests"])
       = (Returns d, st')
       /\ exactly_once ["north"; "south"] d.
Proof.
  assert (NoDup ["north"; "south"]) as Hnodup.
  { apply NoDup_cons. split.
    - intros Hin. apply list_elem_of_In in Hin.
      destruct Hin as [Hin | []]. discriminate Hin.
    - apply NoDup_singleton. }
  split; [exact Hnodup|].
  destruct (each_direction_once (E := scripted) "blue wizard" "wizard" 48 None
              (Some ["north"; "south"])
              (start (Returns None)
                 [Image "0123456789"; Fails "429 Too Many Requests"]))
    as (d & st' & Hrun & _ & Honce).
  exists d, st'. split; [exact Hrun | exact (Honce Hnodup)].
Defined.

(** C2 as stated fails when the remote client raises an exception whose
    text is empty: the one failure entry then carries the empty reason. *)
Lemma empty_exception_text_gives_empty_reason :
  ~ exists d st',
      generate_character_set (E := scripted) "blue wizard" "wizard" 48
        (Some ["north"]) None (start (Returns None) [Fails ""])
      = (Returns d, st')
      /\ reports_every_failure nonempty_text ["north"]
           (attempts (E := scripted) "blue wizard" "wizard" 48 None ["north"]
              (start (Returns None) [Fails ""]))
           d.
Proof.
  intros (d & st' & Hrun & _ & Hall).
  assert (attempts (E := scripted) "blue wizard" "wizard" 48 None ["north"]
            (start (Returns None) [Fails ""])
          = [("north", Returns (sprite_failed "" "blue wizard"))])
    as Hatt by evaluate.
  rewrite Hatt in Hall.
  destruct Hall as (_ & _ & Hreasons & Hgood).
  - repeat constructor.
  - rewrite Hreasons in Hgood.
    apply Forall_cons in Hgood. destruct Hgood as [(s & Hs & Hne) _].
    injection Hs as <-. apply Hne. reflexivity.
Qed.

Lemma offline_raises_text : raises_text (E := offline).
Proof.
  intros [(req & w & w' & H) | [(img & w & w' & H) | [(p & w & w' & H)
          | (img & p & w & w' & H)]]]; discriminate H.
Qed.

Lemma set_reports_failures_witness :
  raises_text (E := offline)
  /\ exists d st',
       generate_character_set (E := offline) "blue wizard" "wizard" 48
         (Some ["north"; "south"]) None unplugged
       = (Returns d, st')
       /\ reports_every_failure nonempty_text ["north"; "south"]
            (attempts (E := offline) "blue wizard" "wizard" 48 None
               ["north"; "south"] unplugged)
            d.
Proof.
  split; [exact offline_raises_text|].
  destruct (set_reports_failures (E := offline) "blue wizard" "wizard" 48 None
              (Some ["north"; "south"]) unplugged)
    as (d & st' & Hrun & _ & Htext).
  exists d, st'. split; [exact Hrun | exact (Htext offline_raises_text)].
Defined.

(** C4 as stated fails on the literal: a response without an image is
    reported as "No image in response", not "no image in response". *)
Lemma no_image_reason_is_capitalised :
  fst (generate_sprite (E := scripted) "golden coin" "coin" 24 24 "top-down"
         "south" true (Some "/tmp/out") (start (Returns None) [NoImage]))
  <> Returns (sprite_failed "no image in response" "golden coin").
Proof.
  assert (fst (generate_sprite (E := scripted) "golden coin" "coin" 24 24
                 "top-down" "south" true (Some "/tmp/out")
                 (start (Returns None) [NoImage]))
          = Returns (sprite_failed "No image in response" "golden coin"))
    as Hrun by evaluate.
  rewrite Hrun. discriminate.
Qed.

(** C5 as stated fails when the two calls name different output
    directories: same name, same direction, two paths, two files. *)
Lemma other_output_dir_other_path :
  ~ same_path_twice (E := scripted) "coin" "south" (Some "/tmp/a") (Some "/tmp/b")
      (start (Returns None) [Image "0123456789"; Image "9876543210"]).
Proof.
  intros H.
  set (st0 := start (Returns None) [Image "0123456789"; Image "9876543210"]) in H.
  set (call1 := generate_sprite (E := scripted) "golden coin" "coin" 24 24
                  "top-down" "south" true (Some "/tmp/a") st0).
  set (call2 := generate_sprite (E := scripted) "golden coin" "coin" 24 24
                  "top-down" "south" true (Some "/tmp/b") (snd call1)).
  assert (call1 = (Returns (sprite_saved (E := scripted) "golden coin" "coin" 24 24
                              "top-down" "south" (Some "/tmp/a")), snd call1))
    as Hrun1 by evaluate.
  assert (call2 = (Returns (sprite_saved (E := scripted) "golden coin" "coin" 24 24
                              "top-down" "south" (Some "/tmp/b")), snd call2))
    as Hrun2 by evaluate.
  destruct (H _ _ _ _ _ _ _ _ _ _ _ _ _ _ Hrun1 eq_refl Hrun2 eq_refl)
    as (_ & _ & Hpath & _).
  discriminate Hpath.
Qed.

Lemma same_output_dir_same_path_witness :
  let st0 := start (Returns None) [Image "0123456789"; Image "9876543210"] in
  let call1 := generate_sprite (E := scripted) "golden coin" "coin" 24 24
                 "top-down" "south" true (Some "/tmp/out") st0 in
  let call2 := generate_sprite (E := scripted) "shiny coin" "coin" 32 32
                 "side" "south" false (Some "/tmp/out") (snd call1) in
  exists d1 d2,
    call1 = (Returns d1, snd call1)
    /\ dict_get d1 "ok" = VBool true
    /\ call2 = (Returns d2, snd call2)
    /\ dict_get d2 "ok" = VBool true
    /\ dict_get d1 "file_path" = VStr "/tmp/out/coin_south.png"
    /\ dict_get d1 "file_path" = dict_get d2 "file_path"
    /\ dom (files (snd call2)) = dom (files (snd call1))
    /\ exists p img1 img2,
         dict_get d1 "file_path" = VStr p
         /\ files (snd call1) = <[p := img1]> (files st0)
         /\ files (snd call2) = <[p := img2]> (files (snd call1)).
Proof.
  intros st0 call1 call2.
  assert (call1 = (Returns (sprite_saved (E := scripted) "golden coin" "coin" 24 24
                              "top-down" "south" (Some "/tmp/out")), snd call1))
    as Hrun1 by evaluate.
  assert (call2 = (Returns (sprite_saved (E := scripted) "shiny coin" "coin" 32 32
                              "side" "south" (Some "/tmp/out")), snd call2))
    as Hrun2 by evaluate.
  destruct (same_output_dir_same_path (E := scripted) "coin" "south"
              (Some "/tmp/out") st0
              _ _ _ _ _ _ _ _ _ _ _ _ _ _ Hrun1 eq_refl Hrun2 eq_refl)
    as (_ & _ & Hpath & Hdom & p & img1 & img2 & Hp & Hfiles1 & _ & _ & Hfiles2 & _).
  do 2 eexists.
  split; [exact Hrun1|]. split; [reflexivity|].
  split; [exact Hrun2|]. split; [reflexivity|].
  split; [reflexivity|]. split; [exact Hpath|]. split; [exact Hdom|].
  exists p, img1, img2.
  split; [exact Hp|]. split; [exact Hfiles1 | exact Hfiles2].
Defined.

(** C7 as stated fails: against a status that is empty twice and then
    non-empty, with an interval of 5 and a limit of 10 seconds, the wait
    never ends ready, whatever the fuel; it does not poll first. *)
Lemma third_poll_never_made :
  ~ PollLoop.ready_after (C := ready_at) 5 10 2 (waiting 2).
Proof.
  intros (fuel & waited & rotations & st' & Hrun & _).
  destruct fuel as [|[|[|fuel]]]; vm_compute in Hrun; discriminate Hrun.
Qed.

(** The script's own constants: a job ready at the third poll is found
    after 15 seconds. *)
Example script_ready_at_third_poll :
  PollLoop.await_completion (C := ready_at)
    (PollLoop.enough PollLoop.max_wait 0) PollLoop.poll_interval PollLoop.max_wait
    (waiting 2)
  = Some (PollLoop.Ready 15
            (["south"; "west"; "north"; "east"] : list (@PollLoop.rotation ready_at)),
          {| PollLoop.ext := 0%nat : @PollLoop.remote ready_at;
             PollLoop.log := PollLoop.rounds 5 3 |}).
Proof. evaluate. Qed.

Lemma sleeps_before_every_poll_witness :
  (0 < 5)%Z
  /\ exists v st' (k : nat),
       PollLoop.await_completion (C := ready_at) (PollLoop.enough 10 0) 5 10
         (waiting 2)
       = Some (v, st')
       /\ PollLoop.wait_ends 5 10 (waiting 2) v st' k.
Proof.
  split; [lia|].
  exact (proj1 sleeps_before_every_poll ready_at 5%Z 10%Z (waiting 2) ltac:(lia)).
Defined.

(** ** Further properties of the tools *)

Section FileNames.
Context `{E : Env}.

(** What the file-name rule does to one ASCII character. *)
Lemma ascii_slug_char c :
  let c' := if Ascii.eqb (PyStr.lower_ascii c) " " then "_"%char
            else PyStr.lower_ascii c in
  c' <> " "%char
  /\ is_upper c' = false
  /\ (if Ascii.eqb (PyStr.lower_ascii c') " " then "_"%char
      else PyStr.lower_ascii c') = c'
  /\ ((nat_of_ascii c <? 128)%nat = true -> (nat_of_ascii c' <? 128)%nat = true).
Proof.
  destruct c as [[] [] [] [] [] [] [] []]; vm_compute;
    (split; [discriminate | split; [reflexivity | split; [reflexivity|]]]);
    intros H; first [exact H | reflexivity].
Qed.

Lemma ascii_slug_cons c name :
  ascii_slug (String c name)
  = String (if Ascii.eqb (PyStr.lower_ascii c) " " then "_"%char
            else PyStr.lower_ascii c) (ascii_slug name).
Proof. reflexivity. Qed.

(** On ASCII names the program's rule is the ASCII rule. *)
Lemma slug_ascii name : PyStr.is_ascii name = true -> slug name = ascii_slug name.
Proof.
  intros H. unfold slug, ascii_slug. rewrite (str_lower_ascii name H). reflexivity.
Qed.

Lemma ascii_slug_is_ascii name :
  PyStr.is_ascii name = true -> PyStr.is_ascii (ascii_slug name) = true.
Proof.
  induction name as [|c name IH]; [reflexivity|].
  rewrite ascii_slug_cons. cbn [PyStr.is_ascii].
  intros H. apply andb_prop in H. destruct H as [Hc Hname].
  destruct (ascii_slug_char c) as (_ & _ & _ & Hlow). cbv zeta in Hlow.
  rewrite (Hlow Hc), (IH Hname). reflexivity.
Qed.

Lemma ascii_slug_no_capital name :
  List.Forall (fun c => is_upper c = false) (list_ascii_of_string (ascii_slug name)).
Proof.
  induction name as [|c name IH]; [constructor|].
  rewrite ascii_slug_cons. cbn [list_ascii_of_string].
  constructor; [|exact IH].
  destruct (ascii_slug_char c) as (_ & Hup & _). exact Hup.
Qed.

Lemma ascii_slug_idempotent name : ascii_slug (ascii_slug name) = ascii_slug name.
Proof.
  induction name as [|c name IH]; [reflexivity|].
  rewrite !ascii_slug_cons, IH.
  destruct (ascii_slug_char c) as (_ & _ & Hfix & _). cbv zeta in Hfix.
  rewrite Hfix. reflexivity.
Qed.

Lemma replace_no_space s :
  List.Forall (fun c => c <> " "%char)
              (list_ascii_of_string (PyStr.replace " " "_" s)).
Proof.
  induction s as [|c s IH]; [constructor|].
  cbn [PyStr.replace list_ascii_of_string]. constructor; [|exact IH].
  destruct (Ascii.eqb c " ") eqn:Hc; [discriminate|].
  intros ->. discriminate Hc.
Qed.

(** X2: the name part of a file name, [name.lower().replace(' ', '_')],
    never contains a space, whatever the name; for a name of ASCII
    characters it contains no capital letter either. *)
Theorem slug_has_no_space_no_capital name :
  List.Forall (fun c => c <> " "%char) (list_ascii_of_string (slug name))
  /\ (PyStr.is_ascii name = true ->
      List.Forall (fun c => is_upper c = false) (list_ascii_of_string (slug name))).
Proof.
  split; [apply replace_no_space|].
  intros H. rewrite (slug_ascii name H). apply ascii_slug_no_capital.
Qed.

(** X3: for a name of ASCII characters the file-name rule is idempotent,
    so the name and its normalised form ("Blue Wizard" and "blue_wizard")
    give the same sprite path and the same tile path: the two names share
    one file. *)
Theorem normalised_name_same_file name direction output_dir :
  PyStr.is_ascii name = true ->
  slug (slug name) = slug name
  /\ sprite_file_path (slug name) direction output_dir
     = sprite_file_path name direction output_dir
  /\ tile_file_path (slug name) output_dir = tile_file_path name output_dir.
Proof.
  intros H.
  assert (slug (slug name) = slug name) as Hidem.
  { rewrite (slug_ascii name H).
    rewrite (slug_ascii _ (ascii_slug_is_ascii name H)).
    apply ascii_slug_idempotent. }
  split; [exact Hidem|].
  unfold sprite_file_path, tile_file_path, sprite_filename, tile_filename.
  fold (slug (slug name)). fold (slug name).
  rewrite Hidem. split; reflexivity.
Qed.

End FileNames.

Section MoreSingleRequests.
Context `{E : Env}.

(** X1: [generate_tile] sends one request, square, with the [isometric]
    flag, no view, no direction and an opaque background.  It writes
    nothing when the remote call raises or the response has no image, and
    returns the failure dict with the exception's text or
    "No image in response".  With an image it makes the directory
    [<output dir>/tiles], decodes the image and saves it once, at
    [<output dir>/tiles/<name part>.png]: when all three return, it returns
    the [ok] dict and the file holds the decoded image; when one of them
    raises, it stops there, returns the failure dict with that exception's
    text, and no file is saved. *)
Theorem generate_tile_writes description name size isometric output_dir st :
  let req := tile_request description size isometric in
  let dir := tile_dir output_dir in
  let file_path := tile_file_path name output_dir in
  let returns d w files' calls :=
    generate_tile description name size isometric output_dir st
    = (Returns d, {| ext := w; files := files'; log := log st ++ calls |}) in
  match generate_image_pixflux req (ext st) with
  | (Raises e, w) =>
      returns (sprite_failed e description) w (files st) [EGenerate req]
  | (Returns None, w) =>
      returns (sprite_failed "No image in response" description) w (files st)
              [EGenerate req]
  | (Returns (Some image), w) =>
      match os_mkdir dir w with
      | (Raises e, w1) =>
          returns (sprite_failed e description) w1 (files st)
                  [EGenerate req; EMkdir (str_path dir)]
      | (Returns _, w1) =>
          match pil_image image w1 with
          | (Raises e, w2) =>
              returns (sprite_failed e description) w2 (files st)
                      [EGenerate req; EMkdir (str_path dir)]
          | (Returns img, w2) =>
              match os_save img file_path w2 with
              | (Raises e, w3) =>
                  returns (sprite_failed e description) w3 (files st)
                          [EGenerate req; EMkdir (str_path dir);
                           ESave (str_path file_path)]
              | (Returns _, w3) =>
                  returns (tile_saved description name size isometric output_dir)
                          w3 (<[str_path file_path := img]> (files st))
                          [EGenerate req; EMkdir (str_path dir);
                           ESave (str_path file_path)]
              end
          end
      end
  end.
Proof.
  intros req dir file_path returns. subst req dir file_path returns.
  unfold generate_tile, tile_request, tile_file_path, tile_dir, save, mkdir,
    client_generate, try_except, bind, call, call_pure, ret; simpl.
  destruct (generate_image_pixflux _ (ext st)) as [[[image|]|e] w]; simpl;
    [|reflexivity..].
  destruct (os_mkdir _ w) as [[[]|e] w1]; simpl;
    [|rewrite <- !app_assoc; reflexivity].
  destruct (pil_image image w1) as [[img|e] w2]; simpl;
    [|rewrite <- !app_assoc; reflexivity].
  destruct (os_save img _ w2) as [[[]|e] w3]; simpl;
    rewrite <- !app_assoc; reflexivity.
Qed.

End MoreSingleRequests.

Section CallOrder.
Context `{E : Env}.

(** X4: the calls of one [generate_sprite], in order, are the remote
    request, then, only when the response has an image, [mkdir] on the
    output directory, then at most one [save], at the sprite's own path.  The
    directory is made before the image is decoded, so it is made even when
    decoding or saving then fails; a result with [ok] true has made all
    three calls. *)
Theorem generate_sprite_call_order description name width height view direction
    no_background output_dir st :
  let req := sprite_request description width height view direction no_background in
  let dir := EMkdir (str_path (Path (output_dir_or_default output_dir))) in
  let saved := ESave (str_path (sprite_file_path name direction output_dir)) in
  exists d st' tail,
    generate_sprite description name width height view direction no_background
                    output_dir st = (Returns d, st')
    /\ log st' = log st ++ EGenerate req :: tail
    /\ match fst (generate_image_pixflux req (ext st)) with
       | Returns (Some _) => tail = [dir] \/ tail = [dir; saved]
       | _ => tail = []
       end
    /\ (if truthy (dict_get d "ok") then tail = [dir; saved] else True).
Proof.
  intros req dir saved. subst req dir saved.
  unfold generate_sprite, sprite_request, sprite_file_path, save, mkdir,
    client_generate, try_except, bind, call, call_pure, ret; simpl.
  destruct (generate_image_pixflux _ (ext st)) as [[[img|]|e] w]; simpl;
    [|eexists; eexists; exists []; repeat split; reflexivity..].
  destruct (os_mkdir _ w) as [[[]|e] w1]; simpl.
  - destruct (pil_image img w1) as [[pimg|e] w2]; simpl.
    + destruct (os_save pimg _ w2) as [[[]|e] w3]; simpl;
        eexists; eexists; eexists;
        (split; [reflexivity|]); simpl; rewrite <- !app_assoc; simpl;
        (split; [reflexivity|]); (split; [right; reflexivity|]);
        first [reflexivity | exact I].
    + eexists; eexists; eexists.
      split; [reflexivity|]. simpl. rewrite <- !app_assoc. simpl.
      split; [reflexivity|]. split; [left; reflexivity | exact I].
  - eexists; eexists; eexists.
    split; [reflexivity|]. simpl. rewrite <- !app_assoc. simpl.
    split; [reflexivity|]. split; [left; reflexivity | exact I].
Qed.

Lemma for_direction_in_empty_output_dir description name size directions :
  forall results errors st,
    for_direction_in description name size (Some "") directions results errors st
    = for_direction_in description name size None directions results errors st.
Proof.
  induction directions as [|d rest IH]; intros results errors st; [reflexivity|].
  cbn [for_direction_in]. unfold bind.
  change (generate_sprite description name size size "low top-down" d true
            (Some "") st)
    with (generate_sprite description name size size "low top-down" d true None st).
  destruct (generate_sprite description name size size "low top-down" d true None st)
    as [[result|e] st1]; [|reflexivity].
  destruct (truthy (dict_get result "ok")); apply IH.
Qed.

(** X5: an empty string as [output_dir] is treated like a missing one:
    [generate_sprite], [generate_tile] and [generate_character_set] then use
    [DEFAULT_OUTPUT_DIR], returning the same result and leaving the same
    state as with [None]. *)
Theorem empty_output_dir_is_default :
  (forall description name width height view direction no_background st,
      generate_sprite description name width height view direction
                      no_background (Some "") st
      = generate_sprite description name width height view direction
                        no_background None st)
  /\ (forall description name size isometric st,
         generate_tile description name size isometric (Some "") st
         = generate_tile description name size isometric None st)
  /\ (forall description name size directions st,
         generate_character_set description name size directions (Some "") st
         = generate_character_set description name size directions None st).
Proof.
  split; [reflexivity|]. split; [reflexivity|].
  intros description name size directions st.
  unfold generate_character_set, bind.
  rewrite for_direction_in_empty_output_dir. reflexivity.
Qed.

End CallOrder.

(** ** Further properties of a set of directions *)

Section MoreSetFacts.
Context `{E : Env}.
Variables (description name : string) (size : Z) (output_dir : option string).

Local Abbreviation run := (attempts description name size output_dir).
Local Abbreviation file := (fun d => str_path (sprite_file_path name d output_dir)).

Lemma getitem_state (d : dict) k st : snd (getitem d k st) = st.
Proof. unfold getitem. destruct (dict_has d k); reflexivity. Qed.

Lemma subscript_state (r : value) k st : snd (subscript r k st) = st.
Proof. destruct r; try reflexivity. apply getitem_state. Qed.

Lemma comprehension_state k (l : list value) : forall st,
  snd (comprehension k l st) = st.
Proof.
  induction l as [|r l IH]; intros st; [reflexivity|].
  cbn [comprehension]. unfold bind.
  pose proof (subscript_state r k st) as Hsub.
  destruct (subscript r k st) as [[v|e] st1]; simpl in Hsub; subst st1;
    [|reflexivity].
  pose proof (IH st) as Hrest.
  destruct (comprehension k l st) as [[vs|e] st1]; simpl in Hrest; subst st1;
    reflexivity.
Qed.

(** Building the result dict changes nothing: the state a set leaves is
    the state its loop leaves. *)
Lemma generate_character_set_state directions st :
  snd (generate_character_set description name size directions output_dir st)
  = snd (for_direction_in description name size output_dir
           (requested directions) [] [] st).
Proof.
  unfold generate_character_set. fold (requested directions).
  unfold bind at 1.
  destruct (for_direction_in description name size output_dir
              (requested directions) [] [] st) as [[[results errors]|e] st1];
    [|reflexivity].
  simpl. destruct results as [|first results]; [reflexivity|].
  unfold bind at 1.
  pose proof (comprehension_state "direction" (first :: results) st1) as H1.
  destruct (comprehension "direction" (first :: results) st1)
    as [[dirs|e] st2]; simpl in H1; subst st2; [|reflexivity].
  unfold bind at 1.
  pose proof (comprehension_state "file_path" (first :: results) st1) as H2.
  destruct (comprehension "file_path" (first :: results) st1)
    as [[paths|e] st2]; simpl in H2; subst st2; [|reflexivity].
  unfold bind at 1.
  pose proof (subscript_state first "file_path" st1) as H3.
  destruct (subscript first "file_path" st1) as [[p|e] st2];
    simpl in H3; subst st2; [|reflexivity].
  unfold bind, Path_of_value. destruct p; reflexivity.
Qed.

(** The files after the loop are those before it and one per success. *)
Lemma for_direction_in_files directions : forall results errors st,
  let st' := snd (for_direction_in description name size output_dir directions
                    results errors st) in
  dom (files st')
  = dom (files st) ∪ list_to_set (map file (ok_directions (run directions st)))
  /\ (ok_directions (run directions st) = [] -> files st' = files st).
Proof.
  induction directions as [|d rest IH]; intros results errors st; simpl.
  - split; [|reflexivity]. rewrite union_empty_r_L. reflexivity.
  - unfold bind.
    destruct (generate_sprite_cases description name size size "low top-down"
                d true output_dir st)
      as (st1 & _ & [(Hrun & img & Hfiles & _) | (e & Hrun & Hfiles & _)]);
      rewrite Hrun; simpl.
    + destruct (IH (results ++ [VDict (sprite_saved description name size size
                                         "low top-down" d output_dir)])
                   errors st1) as [Hdom _].
      cbv zeta in Hdom. unfold ok_directions in *. simpl.
      split; [|discriminate].
      rewrite Hdom, Hfiles, dom_insert_L. cbn [map list_to_set].
      rewrite (comm_L (∪) {[_]} (dom (files st))), <- (assoc_L (∪)).
      reflexivity.
    + destruct (IH results
                   (errors ++ [VDict [("direction", VStr d); ("error", VStr e)]])
                   st1) as [Hdom Hsame].
      cbv zeta in Hdom, Hsame. unfold ok_directions in *. simpl.
      rewrite Hdom, Hfiles. split; [reflexivity|].
      intros Hnil. rewrite (Hsame Hnil). exact Hfiles.
Qed.

End MoreSetFacts.

Section MoreSetClaims.
Context `{E : Env}.
Variables (description name : string) (size : Z) (output_dir : option string).

Local Abbreviation run := (attempts description name size output_dir).

Lemma failed_attempts_nil (l : list (string * outcome dict)) :
  failed_attempts l = [] <-> List.Forall (fun a => succeeded (snd a) = true) l.
Proof.
  unfold failed_attempts.
  induction l as [|a l IH]; simpl; [split; [constructor | reflexivity]|].
  destruct (succeeded (snd a)) eqn:Ha; simpl.
  - rewrite IH. split; [intros H; constructor; assumption|].
    intros H. inversion H; assumption.
  - split; [discriminate|]. intros H. inversion H; congruence.
Qed.

Lemma ok_directions_all (l : list (string * outcome dict)) :
  List.Forall (fun a => succeeded (snd a) = true) l -> ok_directions l = map fst l.
Proof.
  unfold ok_directions. induction 1 as [|a l Ha _ IH]; simpl; [reflexivity|].
  rewrite Ha. simpl. rewrite IH. reflexivity.
Qed.

(** X6: the numbers of a set add up: successes and failures together are
    as many as the requested directions, and there is one file per
    success.  A result with [ok] true reports in [sprites_generated] the
    number of its successes, which is at least one; a result with [ok]
    false has no success and no [sprites_generated]. *)
Theorem set_counts directions st :
  exists d st',
    generate_character_set description name size directions output_dir st
    = (Returns d, st')
    /\ (length (successes d) + length (failures d)
        = length (requested directions))%nat
    /\ length (written d) = length (successes d)
    /\ if truthy (dict_get d "ok")
       then sprites_generated d = Some (Z.of_nat (length (successes d)))
            /\ successes d <> []
       else successes d = [] /\ sprites_generated d = None.
Proof.
  destruct (generate_character_set_spec description name size output_dir
              directions st) as (st' & Hrun & _).
  eexists; exists st'. split; [exact Hrun|].
  rewrite successes_result, failures_result, written_result, ok_result.
  split.
  - rewrite <- length_app.
    rewrite (Permutation_length (split_by_outcome (run (requested directions) st))).
    rewrite attempts_directions. reflexivity.
  - split; [apply length_map|].
    destruct (ok_directions (run (requested directions) st)) as [|first oks];
      simpl; split; try reflexivity; discriminate.
Qed.

(** X7: the [errors] field is [None] exactly when at least one direction
    was requested and every sub-request succeeded; in every other case,
    the all-failed result and the empty request included, it is the list
    of the failed sub-requests' entries. *)
Theorem errors_none_iff_all_succeeded directions st :
  exists d st',
    generate_character_set description name size directions output_dir st
    = (Returns d, st')
    /\ (dict_get d "errors" = VNone
        <-> requested directions <> []
            /\ List.Forall (fun a => succeeded (snd a) = true)
                           (run (requested directions) st))
    /\ (dict_get d "errors" = VNone
        \/ dict_get d "errors"
           = VList (map error_entry
                        (failed_attempts (run (requested directions) st)))).
Proof.
  destruct (generate_character_set_spec description name size output_dir
              directions st) as (st' & Hrun & _).
  eexists; exists st'. split; [exact Hrun|].
  pose proof (attempts_directions description name size output_dir
                (requested directions) st) as Hdirs.
  set (l := run (requested directions) st) in *.
  unfold character_set_result.
  destruct (ok_directions l) as [|first oks] eqn:Hoks.
  - simpl. split; [|right; reflexivity].
    split; [discriminate|]. intros [Hne Hsucc].
    pose proof (ok_directions_all l Hsucc) as Hall.
    rewrite Hoks, Hdirs in Hall. exfalso. apply Hne. symmetry. exact Hall.
  - destruct (failed_attempts l) as [|a fails] eqn:Hfails; simpl.
    + split; [|left; reflexivity]. split; [intros _ | reflexivity].
      split; [|apply failed_attempts_nil; exact Hfails].
      intros Hempty. rewrite Hempty in Hdirs.
      destruct l; [discriminate Hoks | discriminate Hdirs].
    + split; [|right; reflexivity]. split; [discriminate|].
      intros [_ Hsucc]. apply failed_attempts_nil in Hsucc.
      rewrite Hfails in Hsucc. discriminate Hsucc.
Qed.

(** X8: the files on disk after a set are the files before it together
    with the files the result lists under [files], no other; a set that
    returns [ok] false has changed no file. *)
Theorem set_writes_reported_files directions st :
  exists d st',
    generate_character_set description name size directions output_dir st
    = (Returns d, st')
    /\ dom (files st') = dom (files st) ∪ written_set d
    /\ if truthy (dict_get d "ok") then True else files st' = files st.
Proof.
  destruct (generate_character_set_spec description name size output_dir
              directions st) as (st' & Hrun & _).
  eexists; exists st'. split; [exact Hrun|].
  pose proof (generate_character_set_state description name size output_dir
                directions st) as Hstate.
  rewrite Hrun in Hstate. cbn [snd] in Hstate. subst st'.
  destruct (for_direction_in_files description name size output_dir
              (requested directions) [] [] st) as [Hdom Hsame].
  cbv zeta in Hdom, Hsame.
  unfold written_set. rewrite written_result, ok_result.
  split; [exact Hdom|].
  destruct (ok_directions (run (requested directions) st)); simpl;
    [apply Hsame; reflexivity | exact I].
Qed.

End MoreSetClaims.

(** ** Further properties of the polling loop *)

Section MorePolling.
Import PollLoop.
Open Scope Z_scope.

Lemma polls_rounds poll_interval n : polls (rounds poll_interval n) = n.
Proof.
  unfold polls. induction n as [|n IH]; simpl; [reflexivity|].
  f_equal. exact IH.
Qed.

Lemma polls_app (l1 l2 : list event) : polls (l1 ++ l2) = (polls l1 + polls l2)%nat.
Proof. unfold polls. rewrite List.filter_app, length_app. reflexivity. Qed.

(** However the loop is left: the rounds it made, the last of which began
    before the limit, and where the clock stands. *)
Lemma while_waited_bound `{C : Client} poll_interval max_wait fuel :
  forall waited st out st',
    while_waited fuel poll_interval max_wait waited st = Some (out, st') ->
    exists n : nat,
      log st' = log st ++ rounds poll_interval n
      /\ (n = 0%nat \/ waited + (Z.of_nat n - 1) * poll_interval < max_wait)
      /\ match out with
         | Break w rotations =>
             w = waited + Z.of_nat n * poll_interval /\ (0 < n)%nat
             /\ rotations <> []
         | CondFalse w =>
             w = waited + Z.of_nat n * poll_interval /\ max_wait <= w
         | Exit1 e =>
             (0 < n)%nat /\ exists r, get_character r = (Raises e, ext st')
         end.
Proof.
  induction fuel as [|fuel IH]; intros waited st out st' H; simpl in H.
  - discriminate.
  - destruct (waited <? max_wait) eqn:Hlt.
    + apply Z.ltb_lt in Hlt.
      destruct (get_character (ext st)) as [[rots|e] w] eqn:Hget.
      * destruct rots as [|r rots].
        -- apply IH in H. destruct H as (n & Hlog & Hbound & Hout).
           exists (S n). simpl in Hlog. rewrite Hlog, <- !app_assoc. simpl.
           split; [reflexivity|]. split; [right; lia|].
           destruct out as [w' rots' | w' | e'].
           ++ destruct Hout as (-> & Hn & Hne).
              split; [lia|]. split; [lia | exact Hne].
           ++ destruct Hout as (-> & Hge). split; lia.
           ++ destruct Hout as (Hn & Hr). split; [lia | exact Hr].
        -- injection H as <- <-. exists 1%nat. simpl.
           rewrite <- app_assoc. simpl. split; [reflexivity|].
           split; [right; lia|]. split; [lia|]. split; [lia | discriminate].
      * injection H as <- <-. exists 1%nat. simpl.
        rewrite <- app_assoc. simpl. split; [reflexivity|].
        split; [right; lia|]. split; [lia|]. exists (ext st). exact Hget.
    + apply Z.ltb_ge in Hlt. injection H as <- <-. exists 0%nat. simpl.
      rewrite app_nil_r. split; [reflexivity|]. split; [left; reflexivity|].
      split; lia.
Qed.

(** X9: whenever the wait ends, its log is [n] rounds of one sleep and one
    poll, and the last round began before [max_wait].  It ends ready only
    with rotations in hand and with [waited = n * poll_interval] still below
    [max_wait]; it ends as a timeout only once [n * poll_interval] has
    reached [max_wait]; it ends with a failed status check only right after
    a poll that raised that very error.  With the script's constants, 90
    and 5, that is at most 18 polls. *)
Theorem wait_verdicts `{C : Client} poll_interval max_wait fuel st v st' :
  await_completion fuel poll_interval max_wait st = Some (v, st') ->
  exists n : nat,
    log st' = log st ++ rounds poll_interval n
    /\ (n = 0%nat \/ (Z.of_nat n - 1) * poll_interval < max_wait)
    /\ match v with
       | Ready waited rotations =>
           waited = Z.of_nat n * poll_interval /\ (0 < n)%nat
           /\ waited < max_wait /\ rotations <> []
       | TimedOut => max_wait <= Z.of_nat n * poll_interval
       | StatusCheckFailed e =>
           (0 < n)%nat /\ exists r, get_character r = (Raises e, ext st')
       end
    /\ (poll_interval = PollLoop.poll_interval ->
        max_wait = PollLoop.max_wait ->
        (polls (log st') <= polls (log st) + 18)%nat).
Proof.
  unfold await_completion. intros H.
  destruct (while_waited fuel poll_interval max_wait 0 st) as [[out st1]|] eqn:Hloop;
    [|discriminate].
  destruct (while_waited_bound _ _ _ _ _ _ _ Hloop) as (n & Hlog & Hbound & Hout).
  assert (st1 = st') as -> by (destruct out; congruence).
  exists n. split; [exact Hlog|]. split; [lia|]. split.
  - destruct out as [w rots | w | e].
    + destruct Hout as (-> & Hn & Hne).
      destruct (0 + Z.of_nat n * poll_interval >=? max_wait) eqn:Hcmp;
        injection H as <-.
      * lia.
      * split; [lia|]. split; [exact Hn|]. split; [lia | exact Hne].
    + destruct Hout as (-> & Hge).
      destruct (0 + Z.of_nat n * poll_interval >=? max_wait) eqn:Hcmp;
        injection H as <-; lia.
    + injection H as <-. exact Hout.
  - intros -> ->. rewrite Hlog, polls_app, polls_rounds.
    unfold PollLoop.poll_interval, PollLoop.max_wait in Hbound. lia.
Qed.

(** A job that is ready at poll [m + 1] is found there, provided that poll
    is made. *)
Lemma while_waited_ready_at poll_interval max_wait :
  0 < poll_interval ->
  forall (m fuel : nat) waited l,
    (m < fuel)%nat ->
    waited + Z.of_nat m * poll_interval < max_wait ->
    while_waited (C := Scenario.ready_at) fuel poll_interval max_wait waited
      {| ext := m : @remote Scenario.ready_at; log := l |}
    = Some (Break (waited + (Z.of_nat m + 1) * poll_interval)
              (["south"; "west"; "north"; "east"]
               : list (@rotation Scenario.ready_at)),
            {| ext := 0%nat : @remote Scenario.ready_at;
               log := l ++ rounds poll_interval (S m) |}).
Proof.
  intros Hpos. induction m as [|m IH]; intros fuel waited l Hfuel Hlt;
    (destruct fuel as [|fuel]; [lia|]); cbn [while_waited].
  - destruct (waited <? max_wait) eqn:Hc; [|apply Z.ltb_ge in Hc; lia].
    simpl. rewrite <- app_assoc. simpl. do 3 f_equal. lia.
  - destruct (waited <? max_wait) eqn:Hc; [|apply Z.ltb_ge in Hc; lia].
    simpl. rewrite IH; [|lia|lia].
    rewrite <- !app_assoc. simpl. do 3 f_equal. lia.
Qed.

(** X10: against a job whose status is empty for [m] polls and lists
    rotations from then on, where poll [m + 1] is within the limit, the wait
    makes exactly [m + 1] rounds and that poll does return the rotations;
    yet the verdict is ready only if [(m + 1) * poll_interval] is still
    below [max_wait].  A job that becomes ready at the last poll the limit
    allows is reported as a timeout. *)
Theorem ready_at_the_limit_times_out poll_interval max_wait (m : nat) :
  0 < poll_interval ->
  Z.of_nat m * poll_interval < max_wait ->
  await_completion (C := Scenario.ready_at) (enough max_wait 0) poll_interval
    max_wait (Scenario.waiting m)
  = Some (if (Z.of_nat m + 1) * poll_interval >=? max_wait
          then TimedOut
          else Ready ((Z.of_nat m + 1) * poll_interval)
                 (["south"; "west"; "north"; "east"]
                  : list (@rotation Scenario.ready_at)),
          {| ext := 0%nat : @remote Scenario.ready_at;
             log := rounds poll_interval (S m) |}).
Proof.
  intros Hpos Hlt. unfold await_completion, Scenario.waiting.
  rewrite (while_waited_ready_at poll_interval max_wait Hpos m); [|unfold enough; nia|lia].
  cbn [app]. replace (0 + (Z.of_nat m + 1) * poll_interval)
    with ((Z.of_nat m + 1) * poll_interval) by lia.
  reflexivity.
Qed.

End MorePolling.

(** ** The scripts that call the tools *)

Section ScriptFacts.
Context `{E : Env}.

(** One tile request: it returns, sends its one request, and changes at
    most the tile's own file. *)
Lemma generate_tile_cases description name size isometric output_dir st :
  exists d st',
    generate_tile description name size isometric output_dir st = (Returns d, st')
    /\ requests (log st')
       = requests (log st) ++ [tile_request description size isometric]
    /\ (files st' = files st
        \/ exists img,
             files st' = <[str_path (tile_file_path name output_dir) := img]> (files st)).
Proof.
  unfold generate_tile, tile_request, save, mkdir, client_generate, try_except,
    bind, call, call_pure, ret; simpl.
  destruct (generate_image_pixflux _ (ext st)) as [[[img|]|e] w]; simpl.
  - destruct (os_mkdir _ w) as [[[]|e] w1]; simpl.
    + destruct (pil_image img w1) as [[pimg|e] w2]; simpl.
      * destruct (os_save pimg _ w2) as [[[]|e] w3]; simpl;
          eexists; eexists; (split; [reflexivity|]); simpl;
          unfold requests; rewrite !flat_map_app; simpl; rewrite !app_nil_r;
          (split; [reflexivity|]);
          first [left; reflexivity | right; exists pimg; reflexivity].
      * eexists; eexists; (split; [reflexivity|]); simpl.
        unfold requests; rewrite !flat_map_app; simpl; rewrite !app_nil_r.
        split; [reflexivity | left; reflexivity].
    + eexists; eexists; (split; [reflexivity|]); simpl.
      unfold requests; rewrite !flat_map_app; simpl; rewrite !app_nil_r.
      split; [reflexivity | left; reflexivity].
  - eexists; eexists; (split; [reflexivity|]); simpl.
    unfold requests; rewrite !flat_map_app; simpl.
    split; [reflexivity | left; reflexivity].
  - eexists; eexists; (split; [reflexivity|]); simpl.
    unfold requests; rewrite !flat_map_app; simpl.
    split; [reflexivity | left; reflexivity].
Qed.

(** The health check makes its one call and reports whether it returned. *)
Lemma health_run st :
  exists d,
    health st
    = (Returns d,
       {| ext := snd (get_balance (ext st)); files := files st;
          log := log st ++ [EGetBalance] |})
    /\ dict_get d "ok"
       = VBool (match fst (get_balance (ext st)) with
                | Returns _ => true
                | Raises _ => false
                end).
Proof.
  unfold health, try_except, bind, call, ret.
  destruct (get_balance (ext st)) as [[balance|e] w]; simpl;
    eexists; split; reflexivity.
Qed.

(** X11: test_health.py exits with status 0 exactly when the balance
    lookup returns and with status 1 when it raises; either way it has made
    that one call and nothing else. *)
Theorem test_health_exit_status st :
  match get_balance (ext st) with
  | (Returns _, w) =>
      Scripts.test_health st
      = (Returns 0%Z,
         {| ext := w; files := files st; log := log st ++ [EGetBalance] |})
  | (Raises _, w) =>
      Scripts.test_health st
      = (Returns 1%Z,
         {| ext := w; files := files st; log := log st ++ [EGetBalance] |})
  end.
Proof.
  unfold Scripts.test_health, health, try_except, bind, call, ret.
  destruct (get_balance (ext st)) as [[balance|e] w]; reflexivity.
Qed.

(** X12: test_tools.py stops with status 1 when the health check fails,
    before any generation request is sent.  When the health check passes
    it sends exactly two requests, the south-facing 48x48 wizard and then
    the 32x32 grass tile, the tile also when the sprite failed; it ends with
    status 0 whatever the two outcomes, and every file other than the
    wizard's and the tile's is as it was: none added, none removed, none
    rewritten. *)
Theorem test_tools_exit_status st :
  match get_balance (ext st) with
  | (Raises _, w) =>
      Scripts.test_tools st
      = (Returns 1%Z,
         {| ext := w; files := files st; log := log st ++ [EGetBalance] |})
  | (Returns _, _) =>
      exists st',
        Scripts.test_tools st = (Returns 0%Z, st')
        /\ requests (log st')
           = requests (log st)
             ++ [ sprite_request "blue wizard with staff" 48 48 "low top-down"
                    "south" true;
                  tile_request "grass block with flowers" 32 false ]
        /\ forall q : string,
             q <> str_path (sprite_file_path "test_wizard" "south" None) ->
             q <> str_path (tile_file_path "test_grass" None) ->
             files st' !! q = files st !! q
  end.
Proof.
  destruct (health_run st) as (d & Hhealth & Hok).
  destruct (get_balance (ext st)) as [[balance|e] w];
    unfold Scripts.test_tools; unfold bind at 1; rewrite Hhealth, Hok;
    cbn [fst snd truthy]; [|reflexivity].
  set (st0 := {| ext := w; files := files st; log := log st ++ [EGetBalance] |}).
  assert (requests (log st0) = requests (log st)) as Hreq0.
  { unfold st0, requests. simpl. rewrite flat_map_app. simpl.
    apply app_nil_r. }
  change (files st) with (files st0). rewrite <- Hreq0. clearbody st0.
  destruct (generate_sprite_cases "blue wizard with staff" "test_wizard" 48 48
              "low top-down" "south" true None st0)
    as (st1 & Hreq1 & Hsprite).
  assert (exists d1, generate_sprite "blue wizard with staff" "test_wizard" 48 48
                       "low top-down" "south" true None st0 = (Returns d1, st1)
                     /\ forall q : string,
                          q <> str_path (sprite_file_path "test_wizard" "south" None) ->
                          files st1 !! q = files st0 !! q)
    as (d1 & Hrun1 & Hkeep1).
  { destruct Hsprite as [(Hrun & img & Hfiles & _) | (e & Hrun & Hfiles & _)];
      eexists; (split; [exact Hrun|]); rewrite Hfiles; intros q Hq.
    - apply lookup_insert_ne. congruence.
    - reflexivity. }
  destruct (generate_tile_cases "grass block with flowers" "test_grass" 32 false
              None st1) as (d2 & st2 & Hrun2 & Hreq2 & Htile).
  exists st2. unfold bind. rewrite Hrun1, Hrun2.
  split; [reflexivity|]. split.
  - rewrite Hreq2, Hreq1, <- app_assoc. reflexivity.
  - intros q Hq1 Hq2. rewrite <- (Hkeep1 q Hq1).
    destruct Htile as [-> | (img & ->)]; [reflexivity|].
    apply lookup_insert_ne. congruence.
Qed.

End ScriptFacts.

(** ** The download step *)

Section DownloadFacts.
Import Download.
Context `{W : Download.Web}.

Lemma gets_app (l1 l2 : list event) : gets (l1 ++ l2) = gets l1 ++ gets l2.
Proof. apply flat_map_app. Qed.

Ltac stop_here :=
  exists 0%nat; cbn [ext files log length take map list_to_set];
  rewrite !gets_app; cbn [gets flat_map app]; rewrite ?app_nil_r;
  (split; [lia|]); (split; [reflexivity|]);
  rewrite union_empty_r_L; reflexivity.

(** The loop either saves every rotation, or stops at the first one whose
    download or write fails. *)
Lemma for_rotation_in_spec (rotations : list rotation) :
  forall saved_files st,
    match for_rotation_in rotations saved_files st with
    | (Returns saved, st') =>
        saved = saved_files ++ map file_of rotations
        /\ gets (log st') = gets (log st) ++ map image_url rotations
        /\ dom (files st') = dom (files st) ∪ list_to_set (map file_of rotations)
    | (Raises e, st') =>
        exists k : nat,
          (k < length rotations)%nat
          /\ gets (log st') = gets (log st) ++ map image_url (take (S k) rotations)
          /\ dom (files st')
             = dom (files st) ∪ list_to_set (map file_of (take k rotations))
    end.
Proof.
  induction rotations as [|r rest IH]; intros saved_files st.
  - simpl. rewrite !app_nil_r, union_empty_r_L. repeat split.
  - cbn [for_rotation_in].
    destruct (http_get (image_url r) (ext st)) as [[resp|e] w];
      cbn [ext files log]; [|stop_here].
    destruct (status_error resp) as [e|]; [stop_here|].
    destruct (write_bytes (file_of r) (content resp) w) as [[[]|e] w1];
      cbn [ext files log]; [|stop_here].
    match goal with
    | |- context [for_rotation_in rest ?s ?st1] =>
        specialize (IH s st1);
        destruct (for_rotation_in rest s st1) as [[saved|e] st']
    end; cbn [ext files log] in IH; rewrite !gets_app in IH;
      cbn [gets flat_map app] in IH; rewrite !app_nil_r in IH;
      rewrite dom_insert_L in IH.
    + destruct IH as (-> & Hgets & Hdom).
      rewrite Hgets, Hdom. cbn [map list_to_set].
      rewrite <- !app_assoc. cbn [app].
      split; [reflexivity|]. split; [reflexivity|].
      rewrite (comm_L (∪) {[_]} (dom (files st))), <- (assoc_L (∪)).
      reflexivity.
    + destruct IH as (k & Hk & Hgets & Hdom).
      exists (S k). cbn [length]. split; [lia|].
      rewrite Hgets, Hdom. cbn [take map list_to_set].
      rewrite <- !app_assoc. cbn [app].
      split; [reflexivity|].
      rewrite (comm_L (∪) {[_]} (dom (files st))), <- (assoc_L (∪)).
      reflexivity.
Qed.

(** Rotations that download without trouble are passed one by one, and
    the loop goes on with the rest. *)
Lemma for_rotation_in_fetched w fs pre w1 fs1 :
  fetched w fs pre w1 fs1 ->
  forall l saved_files rest,
    for_rotation_in (pre ++ rest) saved_files {| ext := w; files := fs; log := l |}
    = for_rotation_in rest (saved_files ++ map file_of pre)
        {| ext := w1; files := fs1; log := l ++ events_of pre |}.
Proof.
  induction 1 as [w fs | w fs r pre resp w1 u w2 w3 fs3 Hget Hstatus Hwrite _ IH];
    intros l saved_files rest.
  - simpl. rewrite !app_nil_r. reflexivity.
  - cbn [app for_rotation_in ext files log]. rewrite Hget. cbn [ext files log].
    rewrite Hstatus, Hwrite. cbn [ext files log].
    rewrite IH. cbn [map events_of flat_map app].
    rewrite <- !app_assoc. reflexivity.
Qed.

Lemma gets_events_of (rotations : list rotation) :
  gets (events_of rotations) = map image_url rotations.
Proof.
  induction rotations as [|r rest IH]; [reflexivity|].
  cbn [events_of flat_map app gets map]. f_equal. exact IH.
Qed.


End DownloadFacts.

(** ** The further properties at concrete inputs *)

Lemma wait_verdicts_witness :
  PollLoop.await_completion (C := ready_at) (PollLoop.enough 90 0) 5 90 (waiting 2)
  = Some (PollLoop.Ready 15
            (["south"; "west"; "north"; "east"] : list (@PollLoop.rotation ready_at)),
          {| PollLoop.ext := 0%nat : @PollLoop.remote ready_at;
             PollLoop.log := PollLoop.rounds 5 3 |})
  /\ exists n : nat,
       PollLoop.rounds 5 3 = PollLoop.log (waiting 2) ++ PollLoop.rounds 5 n
       /\ (n = 0%nat \/ ((Z.of_nat n - 1) * 5 < 90)%Z).
Proof.
  assert (PollLoop.await_completion (C := ready_at) (PollLoop.enough 90 0) 5 90
            (waiting 2)
          = Some (PollLoop.Ready 15
                    (["south"; "west"; "north"; "east"]
                     : list (@PollLoop.rotation ready_at)),
                  {| PollLoop.ext := 0%nat : @PollLoop.remote ready_at;
                     PollLoop.log := PollLoop.rounds 5 3 |}))
    as Hrun by evaluate.
  split; [exact Hrun|].
  destruct (wait_verdicts (C := ready_at) 5 90 (PollLoop.enough 90 0) (waiting 2)
              _ _ Hrun) as (n & Hlog & Hbound & _).
  exists n. split; [exact Hlog | exact Hbound].
Defined.

Lemma ready_at_the_limit_times_out_witness :
  (0 < 5)%Z /\ (Z.of_nat 1 * 5 < 10)%Z
  /\ PollLoop.await_completion (C := ready_at) (PollLoop.enough 10 0) 5 10 (waiting 1)
     = Some (PollLoop.TimedOut,
             {| PollLoop.ext := 0%nat : @PollLoop.remote ready_at;
                PollLoop.log := PollLoop.rounds 5 2 |}).
Proof.
  split; [lia|]. split; [lia|].
  exact (ready_at_the_limit_times_out 5 10 1 ltac:(lia) ltac:(lia)).
Defined.

Lemma slug_has_no_space_no_capital_witness :
  PyStr.is_ascii "Blue Wizard" = true
  /\ List.Forall (fun c => is_upper c = false)
                 (list_ascii_of_string (slug (E := scripted) "Blue Wizard")).
Proof.
  split; [reflexivity|].
  exact (proj2 (slug_has_no_space_no_capital (E := scripted) "Blue Wizard") eq_refl).
Defined.

Lemma normalised_name_same_file_witness :
  PyStr.is_ascii "Blue Wizard" = true
  /\ slug (E := scripted) "Blue Wizard" = "blue_wizard"
  /\ sprite_file_path (E := scripted) (slug (E := scripted) "Blue Wizard") "south" None
     = sprite_file_path (E := scripted) "Blue Wizard" "south" None.
Proof.
  split; [reflexivity|]. split; [reflexivity|].
  exact (proj1 (proj2 (normalised_name_same_file (E := scripted) "Blue Wizard"
                         "south" None eq_refl))).
Defined.

